(** * go-redis: the cache contract of [redisstore.RedisStore] and the
      prefixing [goredis.Service]

    A shallow embedding of the Go sources: package redisstore (the store
    methods and [invoke]) and service.go (the Service and [cacheKey]).
    Every store method talks to Redis through [conn.Do]; the embedding
    keeps that shape: a method is a program over the [Do] calls it makes,
    and a program is run against any implementation of the connection
    interface.  Two implementations are given: a Redis server holding a
    keyspace, and the connection a closed pool hands out, whose every
    call fails.

    Redis itself, redigo's reply helpers and Go's strconv are not part of
    the repository; they are written down here from their documented
    behaviour, as far as the store's commands reach. *)

From Stdlib Require Import ZArith String Ascii List Lia.
From Stdlib Require Import DecimalString DecimalZ DecimalPos.
From stdpp Require Import gmap strings.

Open Scope string_scope.
Open Scope Z_scope.

(** ** Go's fixed-width integers

    [int64], [uint64] and [int32] values are integers of [Z] in the range
    of their type; a Go conversion [T(x)] keeps the low bits of [x]. *)

Module GoInt.

Definition wrap_unsigned (w : Z) (x : Z) : Z := x mod 2 ^ w.

Definition wrap_signed (w : Z) (x : Z) : Z :=
  (x + 2 ^ (w - 1)) mod 2 ^ w - 2 ^ (w - 1).

Definition int64 (x : Z) : Z := wrap_signed 64 x.
Definition uint64 (x : Z) : Z := wrap_unsigned 64 x.
Definition int32 (x : Z) : Z := wrap_signed 32 x.

Definition MinInt64 : Z := - 2 ^ 63.
Definition MaxInt64 : Z := 2 ^ 63 - 1.
Definition MaxUint64 : Z := 2 ^ 64 - 1.

Definition is_int64 (x : Z) : Prop := MinInt64 <= x <= MaxInt64.
Definition is_uint64 (x : Z) : Prop := 0 <= x <= MaxUint64.

End GoInt.

(** ** package time *)

Module time.

(** A [time.Duration] is an [int64] count of nanoseconds. *)
Definition Duration := Z.

Definition Second : Duration := 1000000000.
Definition Minute : Duration := 60 * Second.
Definition Millisecond : Duration := 1000000.

End time.

(** ** Errors

    One type for every [error] value that can reach a caller of the store:
    the three sentinels of package redisstore, redigo's [ErrNil] and
    [redis.Error] (an error reply of the server), strconv's [*NumError],
    redigo's "unexpected type" error, failures of the transport or the
    pool, and those of the serializer. *)

Inductive num_error_kind := ErrSyntax | ErrRange.

Inductive error :=
| ErrCacheMiss
| ErrNotStored
| ErrNotSupport
| ErrNil
| RedisError (msg : string)
| NumError (func : string) (input : string) (kind : num_error_kind)
| UnexpectedType (helper : string)
| TransportError (msg : string)
| CodecError (msg : string).

(** ** package strconv: decimal text of integers *)

Module strconv.

(** [strconv.FormatInt(n, 10)]: an optional minus sign and the digits
    without leading zeros. *)
Definition FormatInt (n : Z) : string :=
  NilZero.string_of_int (Z.to_int n).

(** [strconv.FormatUint(n, 10)]. *)
Definition FormatUint (n : Z) : string :=
  NilZero.string_of_uint (N.to_uint (Z.to_N n)).

(** The digits of [ParseInt]'s input once the sign is removed. *)
Definition split_sign (s : string) : bool * string :=
  match s with
  | String "-" r => (true, r)
  | String "+" r => (false, r)
  | _ => (false, s)
  end.

(** [strconv.ParseInt(s, 10, 64)].  The empty string, a bare sign and
    any character that is not a digit are syntax errors, with value 0;
    a value out of the [int64] range is a range error, with the nearest
    bound as value. *)
Definition ParseInt (s : string) : Z * option error :=
  let '(neg, ds) := split_sign s in
  match ds with
  | EmptyString => (0, Some (NumError "ParseInt" s ErrSyntax))
  | _ =>
      match NilEmpty.uint_of_string ds with
      | None => (0, Some (NumError "ParseInt" s ErrSyntax))
      | Some u =>
          let m := Z.of_uint u in
          if neg then
            if m <=? 2 ^ 63 then (- m, None)
            else (GoInt.MinInt64, Some (NumError "ParseInt" s ErrRange))
          else
            if m <=? GoInt.MaxInt64 then (m, None)
            else (GoInt.MaxInt64, Some (NumError "ParseInt" s ErrRange))
      end
  end.

(** [strconv.ParseBool]. *)
Definition ParseBool (s : string) : bool * option error :=
  if bool_decide (s ∈ ["1"; "t"; "T"; "TRUE"; "true"; "True"]) then (true, None)
  else if bool_decide (s ∈ ["0"; "f"; "F"; "FALSE"; "false"; "False"]) then (false, None)
  else (false, Some (NumError "ParseBool" s ErrSyntax)).

End strconv.

(** ** package redis (redigo): replies, commands and the connection *)

Module redis.

(** What [conn.Do] hands back as its [interface{}] reply: an [int64], a
    [[]byte] bulk string, a [string] status line or a [redis.Error];
    [None] is the nil interface (a nil bulk reply, or no reply at all).
    Array replies are left out: none of the commands below produces
    one. *)
Inductive value :=
| Int64Value (n : Z)
| BytesValue (b : string)
| StringValue (s : string)
| ErrorValue (msg : string).

Definition reply : Type := option value * option error.

(** A command argument, with the Go type it is passed at. *)
Inductive arg :=
| ArgBytes (b : string)
| ArgInt32 (n : Z)
| ArgInt64 (n : Z)
| ArgUint64 (n : Z).

(** The bytes redigo puts on the wire for an argument: [[]byte] as it
    is, [int64] through [strconv.AppendInt], every other integer type
    through [fmt.Fprint], which prints it in decimal too. *)
Definition writeArg (a : arg) : string :=
  match a with
  | ArgBytes b => b
  | ArgInt32 n => strconv.FormatInt n
  | ArgInt64 n => strconv.FormatInt n
  | ArgUint64 n => strconv.FormatUint n
  end.

(** The commands the store sends: [conn.Do("GET", key)] is
    [GET key], and so on. *)
Inductive command :=
| GET (key : string)
| SET (key : string) (v : arg)
| SETEX (key : string) (seconds : arg) (v : arg)
| EXISTS (key : string)
| EXPIRE (key : string) (seconds : arg)
| DEL (key : string)
| DECRBY (key : string) (amount : arg)
| FLUSHDB.

(** The [redis.Conn] interface, reduced to its [Do] method: a call
    yields a reply and leaves the connection (and what is behind it) in
    a new state. *)
Class Conn (C : Type) := { conn_Do : command -> C -> reply * C }.

(** [redis.Bool]. *)
Definition Bool (r : reply) : bool * option error :=
  match r with
  | (_, Some err) => (false, Some err)
  | (Some (Int64Value n), None) => (negb (n =? 0), None)
  | (Some (BytesValue b), None) => strconv.ParseBool b
  | (None, None) => (false, Some ErrNil)
  | (Some (ErrorValue msg), None) => (false, Some (RedisError msg))
  | (Some (StringValue _), None) => (false, Some (UnexpectedType "Bool"))
  end.

(** [redis.Int64]. *)
Definition Int64 (r : reply) : Z * option error :=
  match r with
  | (_, Some err) => (0, Some err)
  | (Some (Int64Value n), None) => (n, None)
  | (Some (BytesValue b), None) => strconv.ParseInt b
  | (None, None) => (0, Some ErrNil)
  | (Some (ErrorValue msg), None) => (0, Some (RedisError msg))
  | (Some (StringValue _), None) => (0, Some (UnexpectedType "Int64"))
  end.

(** [redis.Bytes]; the nil slice of the error cases is the empty
    string. *)
Definition Bytes (r : reply) : string * option error :=
  match r with
  | (_, Some err) => ("", Some err)
  | (Some (BytesValue b), None) => (b, None)
  | (Some (StringValue s), None) => (s, None)
  | (None, None) => ("", Some ErrNil)
  | (Some (ErrorValue msg), None) => ("", Some (RedisError msg))
  | (Some (Int64Value _), None) => ("", Some (UnexpectedType "Bytes"))
  end.

End redis.

(** ** Programs over a connection

    A method body is a tree of [conn.Do] calls: it either returns, or
    sends a command and goes on with the reply. *)

Inductive prog (A : Type) : Type :=
| Ret (a : A)
| Do (c : redis.command) (k : redis.reply -> prog A).

Arguments Ret {A} a.
Arguments Do {A} c k.

Fixpoint bind {A B : Type} (p : prog A) (f : A -> prog B) : prog B :=
  match p with
  | Ret a => f a
  | Do c k => Do c (fun r => bind (k r) f)
  end.

Declare Scope prog_scope.
Delimit Scope prog_scope with prog.

Notation "x <- p ;; q" := (bind p (fun x => q))
  (at level 100, p at next level, right associativity) : prog_scope.

(** [conn.Do(...)] as a program. *)
Definition conn_call (c : redis.command) : prog redis.reply := Do c Ret.

(** Running a program on a connection: the result and the connection's
    final state. *)
Fixpoint run {C : Type} `{redis.Conn C} {A : Type} (p : prog A) (s : C) : A * C :=
  match p with
  | Ret a => (a, s)
  | Do c k => let '(r, s') := redis.conn_Do c s in run (k r) s'
  end.

(** The commands a program sends when run on a connection, first one
    first. *)
Fixpoint trace {C : Type} `{redis.Conn C} {A : Type} (p : prog A) (s : C)
  : list redis.command :=
  match p with
  | Ret _ => []
  | Do c k => let '(r, s') := redis.conn_Do c s in c :: trace (k r) s'
  end.

Definition result {C : Type} `{redis.Conn C} {A : Type} (p : prog A) (s : C) : A :=
  fst (run p s).

Definition final {C : Type} `{redis.Conn C} {A : Type} (p : prog A) (s : C) : C :=
  snd (run p s).

(** The key a command addresses; FLUSHDB addresses none. *)
Definition command_key (c : redis.command) : option string :=
  match c with
  | redis.GET key | redis.SET key _ | redis.SETEX key _ _ | redis.EXISTS key
  | redis.EXPIRE key _ | redis.DEL key | redis.DECRBY key _ => Some key
  | redis.FLUSHDB => None
  end.

(** A program every command of which, whatever the replies, addresses
    the one key. *)
Inductive only_key (key : string) {A : Type} : prog A -> Prop :=
| only_key_Ret (a : A) : only_key key (Ret a)
| only_key_Do (c : redis.command) (k : redis.reply -> prog A) :
    command_key c = Some key ->
    (forall r, only_key key (k r)) ->
    only_key key (Do c k).

(** ** The Redis server behind a healthy connection

    The keyspace of the selected database: flat string values, each with
    the time to live it was last given, in seconds ([None]: the key does
    not expire).  The model has no clock; it follows a sequence of
    commands between which no key expires. *)

Module RedisServer.

Record entry := Entry { payload : string; ttl : option Z }.

Abbreviation keyspace := (gmap string entry).

Definition ok : option redis.value * option error :=
  (Some (redis.StringValue "OK"), None).

Definition integer (n : Z) : option redis.value * option error :=
  (Some (redis.Int64Value n), None).

(** An error reply: redigo's [Do] returns it both as the reply and as
    the error. *)
Definition fail (msg : string) : option redis.value * option error :=
  (Some (redis.ErrorValue msg), Some (RedisError msg)).

Definition not_an_integer : string := "ERR value is not an integer or out of range".

(** The server's reading of a 64-bit integer ([string2ll]): exactly the
    text [FormatInt] prints, so no plus sign, no leading zero, no
    ["-0"]. *)
Definition string2ll (s : string) : option Z :=
  match strconv.ParseInt s with
  | (n, None) => if String.eqb (strconv.FormatInt n) s then Some n else None
  | (_, Some _) => None
  end.

(** [incrDecrCommand]'s overflow test on [oldvalue + incr]. *)
Definition would_overflow (oldvalue incr : Z) : bool :=
  (incr <? 0) && (oldvalue <? 0) && (incr <? GoInt.MinInt64 - oldvalue)
  || (0 <? incr) && (0 <? oldvalue) && (GoInt.MaxInt64 - oldvalue <? incr).

(** One command on the keyspace, after the Redis command reference:
    - GET: the value, or nil when the key is missing;
    - SET: stores the value; "any previous time to live associated with
      the key is discarded";
    - SETEX: stores the value with a time to live in seconds, and is an
      error when the seconds are not positive;
    - EXISTS, DEL: the number of keys found, removed;
    - EXPIRE: 0 on a missing key, else 1, setting the time to live, or
      deleting the key when the seconds are not positive;
    - DECRBY: reads the value (0 when the key is missing) and the
      amount as 64-bit integers, stores and returns the difference, the
      time to live kept; an error when either is not an integer or the
      difference overflows;
    - FLUSHDB: removes every key. *)
Definition execute (c : redis.command) (db : keyspace)
  : redis.reply * keyspace :=
  match c with
  | redis.GET key =>
      match db !! key with
      | Some e => ((Some (redis.BytesValue (payload e)), None), db)
      | None => ((None, None), db)
      end
  | redis.SET key v =>
      (ok, <[key := Entry (redis.writeArg v) None]> db)
  | redis.SETEX key seconds v =>
      match string2ll (redis.writeArg seconds) with
      | None => (fail not_an_integer, db)
      | Some secs =>
          if secs <=? 0 then (fail "ERR invalid expire time in 'setex' command", db)
          else (ok, <[key := Entry (redis.writeArg v) (Some secs)]> db)
      end
  | redis.EXISTS key =>
      match db !! key with
      | Some _ => (integer 1, db)
      | None => (integer 0, db)
      end
  | redis.EXPIRE key seconds =>
      match string2ll (redis.writeArg seconds) with
      | None => (fail not_an_integer, db)
      | Some secs =>
          match db !! key with
          | None => (integer 0, db)
          | Some e =>
              if secs <=? 0 then (integer 1, delete key db)
              else (integer 1, <[key := Entry (payload e) (Some secs)]> db)
          end
      end
  | redis.DEL key =>
      match db !! key with
      | Some _ => (integer 1, delete key db)
      | None => (integer 0, db)
      end
  | redis.DECRBY key amount =>
      match string2ll (redis.writeArg amount) with
      | None => (fail not_an_integer, db)
      | Some decr =>
          if decr =? GoInt.MinInt64 then (fail "ERR decrement would overflow", db)
          else
            let old := match db !! key with
                       | Some e => string2ll (payload e)
                       | None => Some 0
                       end in
            match old with
            | None => (fail not_an_integer, db)
            | Some oldvalue =>
                if would_overflow oldvalue (- decr)
                then (fail "ERR increment or decrement would overflow", db)
                else
                  let newvalue := oldvalue - decr in
                  (integer newvalue,
                   <[key := Entry (strconv.FormatInt newvalue)
                                  (db !! key ≫= ttl)]> db)
            end
      end
  | redis.FLUSHDB => (ok, ∅)
  end.

#[export] Instance server_conn : redis.Conn keyspace :=
  {| redis.conn_Do := execute |}.

(** The key holds the integer [n] in the form the server counts on. *)
Definition holds_integer (db : keyspace) (key : string) (n : Z) : Prop :=
  payload <$> db !! key = Some (strconv.FormatInt n).

End RedisServer.

(** ** A connection that cannot reach the server

    What [pool.Get] returns when the pool is closed or exhausted, and
    what a connection is after a fatal network error: every [Do] answers
    [(nil, err)] and reaches no server. *)

Module errorConn.

Record t := { err : error }.

#[export] Instance error_conn : redis.Conn t :=
  {| redis.conn_Do := fun _ c => ((None, Some (err c)), c) |}.

Definition errPoolClosed : error :=
  TransportError "redigo: get on closed pool".

End errorConn.

(** ** package serializer *)

(** Modelled from the spec: package serializer of this repository is not
    among the sources.  The spec gives it as a pluggable collaborator
    "exposing serialize(value) -> bytes / deserialize(bytes, outTypeHint)
    -> value", its format "unspecified by this core", either direction
    able to fail.  The store is therefore written over any such codec.
    [V] is the type of the non-nil values a caller passes as
    [interface{}]; [None] is the nil interface.  [Deserialize] returns
    what it stored through its pointer argument, if anything, and its
    error. *)
Class Serializer (V : Type) := {
  Serialize : option V -> string * option error;
  Deserialize : string -> option V * option error;
}.

(** ** package redisstore *)

Module redisstore.

Import GoInt.

Definition DEFAULT : time.Duration := 0.
Definition FOREVER : time.Duration := -1.

(** The pool is not part of the record: a method is run on the
    connection the pool gave it. *)
Record RedisStore := { defaultExpiration : time.Duration }.

Definition NewRedisCacheWithPool (defaultExpiration : time.Duration) : RedisStore :=
  {| defaultExpiration := defaultExpiration |}.

(** [exists]; the second result of [redis.Bool] is dropped. *)
Definition exists_ (key : string) : prog bool :=
  (r <- conn_call (redis.EXISTS key) ;;
   let '(retval, _) := redis.Bool r in
   Ret retval)%prog.

Section Store.

Context {V : Type} `{Serializer V}.

Definition invoke (c : RedisStore) (key : string) (value : option V)
    (expires : time.Duration) : prog (option error) :=
  let expires :=
    if expires =? DEFAULT then defaultExpiration c
    else if expires =? FOREVER then 0
    else expires in
  let '(b, err) := Serialize value in
  match err with
  | Some e => Ret (Some e)
  | None =>
      if 0 <? expires then
        (r <- conn_call (redis.SETEX key
                           (redis.ArgInt32 (int32 (expires ÷ time.Second)))
                           (redis.ArgBytes b)) ;;
         Ret (snd r))%prog
      else
        (r <- conn_call (redis.SET key (redis.ArgBytes b)) ;;
         Ret (snd r))%prog
  end.

Definition Set_ (c : RedisStore) (key : string) (value : option V)
    (expires : time.Duration) : prog (option error) :=
  invoke c key value expires.

Definition Add (c : RedisStore) (key : string) (value : option V)
    (expires : time.Duration) : prog (option error) :=
  (present <- exists_ key ;;
   if present then Ret (Some ErrNotStored)
   else invoke c key value expires)%prog.

Definition Replace (c : RedisStore) (key : string) (value : option V)
    (expires : time.Duration) : prog (option error) :=
  (present <- exists_ key ;;
   if negb present then Ret (Some ErrNotStored)
   else
     err <- invoke c key value expires ;;
     match value with
     | None => Ret (Some ErrNotStored)
     | Some _ => Ret err
     end)%prog.

(** The first component is what [ptrValue] points to after the call,
    when the call wrote to it. *)
Definition Get (c : RedisStore) (key : string) : prog (option V * option error) :=
  (r <- conn_call (redis.GET key) ;;
   let '(raw, err) := r in
   match raw with
   | None => Ret (None, Some ErrCacheMiss)
   | Some _ =>
       let '(item, err) := redis.Bytes (raw, err) in
       match err with
       | Some e => Ret (None, Some e)
       | None => Ret (Deserialize item)
       end
   end)%prog.

End Store.

Definition Exists (c : RedisStore) (key : string) : prog bool :=
  (r <- conn_call (redis.EXISTS key) ;;
   let '(b, err) := redis.Bool r in
   match err with
   | Some _ => Ret false
   | None => Ret b
   end)%prog.

Definition SetExpire (c : RedisStore) (key : string) (expires : time.Duration)
  : prog bool :=
  (r <- conn_call (redis.EXPIRE key (redis.ArgInt32 (int32 (expires ÷ time.Second)))) ;;
   let '(b, err) := redis.Bool r in
   match err with
   | Some _ => Ret false
   | None => Ret b
   end)%prog.

Definition Delete (c : RedisStore) (key : string) : prog (option error) :=
  (present <- exists_ key ;;
   if negb present then Ret (Some ErrCacheMiss)
   else
     r <- conn_call (redis.DEL key) ;;
     Ret (snd r))%prog.

Definition Increment (c : RedisStore) (key : string) (delta : Z)
  : prog (Z * option error) :=
  (r <- conn_call (redis.GET key) ;;
   let '(val, err) := r in
   match val with
   | None => Ret (0, Some ErrCacheMiss)
   | Some _ =>
       match err with
       | None =>
           let '(currentVal, err) := redis.Int64 (val, None) in
           match err with
           | Some e => Ret (0, Some e)
           | None =>
               let sum := int64 (currentVal + int64 delta) in
               r <- conn_call (redis.SET key (redis.ArgInt64 sum)) ;;
               match snd r with
               | Some e => Ret (0, Some e)
               | None => Ret (uint64 sum, None)
               end
           end
       | Some e => Ret (0, Some e)
       end
   end)%prog.

Definition Decrement (c : RedisStore) (key : string) (delta : Z)
  : prog (Z * option error) :=
  (present <- exists_ key ;;
   if negb present then Ret (0, Some ErrCacheMiss)
   else
     r <- conn_call (redis.GET key) ;;
     let '(currentVal, err) := redis.Int64 r in
     if bool_decide (err = None) && (uint64 currentVal <? delta) then
       r <- conn_call (redis.DECRBY key (redis.ArgInt64 currentVal)) ;;
       let '(tempint, err) := redis.Int64 r in
       Ret (uint64 tempint, err)
     else
       r <- conn_call (redis.DECRBY key (redis.ArgUint64 delta)) ;;
       let '(tempint, err) := redis.Int64 r in
       Ret (uint64 tempint, err))%prog.

Definition Flush (c : RedisStore) : prog (option error) :=
  (r <- conn_call redis.FLUSHDB ;;
   Ret (snd r))%prog.

End redisstore.

(** ** package goredis: the prefixing Service *)

Module goredis.

Record Service := { prefix : string; store : redisstore.RedisStore }.

Definition NewService (prefix : string) : Service :=
  {| prefix := prefix;
     store := redisstore.NewRedisCacheWithPool redisstore.DEFAULT |}.

Definition cacheKey (s : Service) (key : string) : string :=
  prefix s +:+ ":" +:+ key.

Section Service.

Context {V : Type} `{Serializer V}.

Definition Get (s : Service) (key : string) :=
  redisstore.Get (store s) (cacheKey s key).

Definition Set_ (s : Service) (key : string) (value : option V)
    (expire : time.Duration) :=
  redisstore.Set_ (store s) (cacheKey s key) value expire.

Definition Add (s : Service) (key : string) (value : option V)
    (expire : time.Duration) :=
  redisstore.Add (store s) (cacheKey s key) value expire.

Definition Replace (s : Service) (key : string) (data : option V)
    (expire : time.Duration) :=
  redisstore.Replace (store s) (cacheKey s key) data expire.

End Service.

Definition Delete (s : Service) (key : string) :=
  redisstore.Delete (store s) (cacheKey s key).

Definition Increment (s : Service) (key : string) (data : Z) :=
  redisstore.Increment (store s) (cacheKey s key) data.

Definition Decrement (s : Service) (key : string) (data : Z) :=
  redisstore.Decrement (store s) (cacheKey s key) data.

Definition Flush (s : Service) := redisstore.Flush (store s).

Definition Exists (s : Service) (key : string) :=
  redisstore.Exists (store s) (cacheKey s key).

Definition SetExpire (s : Service) (key : string) (expires : time.Duration) :=
  redisstore.SetExpire (store s) (cacheKey s key) expires.

(** The methods of [Service] that take a key, as data: one constructor
    per method, with the method's arguments. *)
Inductive call (V : Type) :=
| CallGet (key : string)
| CallSet (key : string) (value : option V) (expire : time.Duration)
| CallAdd (key : string) (value : option V) (expire : time.Duration)
| CallReplace (key : string) (data : option V) (expire : time.Duration)
| CallDelete (key : string)
| CallIncrement (key : string) (data : Z)
| CallDecrement (key : string) (data : Z)
| CallExists (key : string)
| CallSetExpire (key : string) (expires : time.Duration).

Arguments CallGet {V}.
Arguments CallSet {V}.
Arguments CallAdd {V}.
Arguments CallReplace {V}.
Arguments CallDelete {V}.
Arguments CallIncrement {V}.
Arguments CallDecrement {V}.
Arguments CallExists {V}.
Arguments CallSetExpire {V}.

Definition call_key {V : Type} (m : call V) : string :=
  match m with
  | CallGet key | CallSet key _ _ | CallAdd key _ _ | CallReplace key _ _
  | CallDelete key | CallIncrement key _ | CallDecrement key _
  | CallExists key | CallSetExpire key _ => key
  end.

(** What a method returns, whichever method it is. *)
Inductive returned (V : Type) :=
| RetError (err : option error)
| RetValue (v : option V) (err : option error)
| RetCount (n : Z) (err : option error)
| RetBool (b : bool).

Arguments RetError {V}.
Arguments RetValue {V}.
Arguments RetCount {V}.
Arguments RetBool {V}.

Definition perform {V : Type} `{Serializer V} (s : Service) (m : call V)
  : prog (returned V) :=
  match m with
  | CallGet key => (r <- Get s key ;; Ret (RetValue (fst r) (snd r)))%prog
  | CallSet key value expire => (e <- Set_ s key value expire ;; Ret (RetError e))%prog
  | CallAdd key value expire => (e <- Add s key value expire ;; Ret (RetError e))%prog
  | CallReplace key data expire => (e <- Replace s key data expire ;; Ret (RetError e))%prog
  | CallDelete key => (e <- Delete s key ;; Ret (RetError e))%prog
  | CallIncrement key data => (r <- Increment s key data ;; Ret (RetCount (fst r) (snd r)))%prog
  | CallDecrement key data => (r <- Decrement s key data ;; Ret (RetCount (fst r) (snd r)))%prog
  | CallExists key => (b <- Exists s key ;; Ret (RetBool b))%prog
  | CallSetExpire key expires => (b <- SetExpire s key expires ;; Ret (RetBool b))%prog
  end.

End goredis.

(** ** A codec to run the store with

    Integers as decimal text, the nil value as ["null"].  The store's
    theorems hold for every codec; this one only supplies concrete
    runs. *)

Module DecimalCodec.

#[export] Instance decimal_codec : Serializer Z := {|
  Serialize v :=
    match v with
    | Some n => (strconv.FormatInt n, None)
    | None => ("null", None)
    end;
  Deserialize b :=
    match strconv.ParseInt b with
    | (n, None) => (Some n, None)
    | (_, Some e) => (None, Some (CodecError "not an integer"))
    end
|}.

End DecimalCodec.

(** ** A codec that refuses the nil value

    As Go's encoding/gob does ("gob: cannot encode nil value"); for the
    rest it is the decimal codec.  It supplies runs in which
    serialization fails. *)

Module StrictCodec.

Definition strict_codec : Serializer Z := {|
  Serialize v :=
    match v with
    | Some n => (strconv.FormatInt n, None)
    | None => ("", Some (CodecError "cannot encode nil value"))
    end;
  Deserialize b :=
    match strconv.ParseInt b with
    | (n, None) => (Some n, None)
    | (_, Some e) => (None, Some (CodecError "not an integer"))
    end
|}.

End StrictCodec.

(** ** Setting up connections: the pools of [NewRedisCache] and
       [CreatePool]

    A pool's [Dial] and [TestOnBorrow] functions act on the network and
    on the connection being set up: they dial, send set-up commands and
    close.  They are programs over those calls; each call answers with
    the [error] the Go call returns (the reply of a set-up command is
    discarded by the code). *)

Module pool.

Inductive setup_command :=
| AUTH (password : string)
| SELECT (database : Z)
| PING.

Inductive call :=
| NetDial (network address : string)
| ConnDo (cmd : setup_command)
| ConnClose.

Inductive setup (A : Type) : Type :=
| Done (a : A)
| Call (c : call) (k : option error -> setup A).

Arguments Done {A} a.
Arguments Call {A} c k.

(** What [Dial] returns: [(c, nil)] or [(nil, err)]. *)
Inductive dialled := Connected | Failed (err : error).

(** [strconv.Itoa]. *)
Definition Itoa (i : Z) : string := strconv.FormatInt i.

(** [fmt.Sprintf("%s:%d", host, port)]. *)
Definition Sprintf_host_port (host : string) (port : Z) : string :=
  host +:+ ":" +:+ strconv.FormatInt port.

Record Pool := {
  MaxIdle : Z;
  MaxActive : Z;
  IdleTimeout : time.Duration;
  Dial : setup dialled;
  TestOnBorrow : setup (option error)
}.

(** The pool [redisstore.NewRedisCache] builds. *)
Definition NewRedisCache (host : string) (port : Z) (password : string)
    (database : Z) : Pool :=
  {| MaxIdle := 5;
     MaxActive := 1000;
     IdleTimeout := 240 * time.Second;
     Dial :=
       Call (NetDial "tcp" (host +:+ ":" +:+ Itoa port)) (fun err =>
         match err with
         | Some e => Done (Failed e)
         | None =>
             let select :=
               Call (ConnDo (SELECT database)) (fun err =>
                 match err with
                 | Some e => Call ConnClose (fun _ => Done (Failed e))
                 | None => Done Connected
                 end) in
             if (0 <? String.length password)%nat then
               Call (ConnDo (AUTH password)) (fun err =>
                 match err with
                 | Some e => Call ConnClose (fun _ => Done (Failed e))
                 | None => select
                 end)
             else select
         end);
     TestOnBorrow :=
       Call (ConnDo PING) (fun err =>
         match err with
         | Some e => Done (Some e)
         | None => Done None
         end) |}.

(** The pool [goredis.CreatePool] builds; no [MaxActive] is given, so it
    is 0. *)
Definition CreatePool (host : string) (port db : Z) (password : string) : Pool :=
  {| MaxIdle := 10;
     MaxActive := 0;
     IdleTimeout := 180 * time.Second;
     Dial :=
       Call (NetDial "tcp" (Sprintf_host_port host port)) (fun err =>
         match err with
         | Some e => Done (Failed e)
         | None =>
             let select :=
               Call (ConnDo (SELECT db)) (fun err =>
                 match err with
                 | Some e => Call ConnClose (fun _ => Done (Failed e))
                 | None => Done Connected
                 end) in
             if (0 <? String.length password)%nat then
               Call (ConnDo (AUTH password)) (fun err =>
                 match err with
                 | Some e => Call ConnClose (fun _ => Done (Failed e))
                 | None => select
                 end)
             else select
         end);
     TestOnBorrow := Call (ConnDo PING) (fun err => Done err) |}.

(** What answers the calls: the network with the connection being set
    up. *)
Class Network (N : Type) := { answer : call -> N -> option error * N }.

Fixpoint run_setup {N : Type} `{Network N} {A : Type} (p : setup A) (n : N)
  : A * N :=
  match p with
  | Done a => (a, n)
  | Call c k => let '(err, n') := answer c n in run_setup (k err) n'
  end.

Fixpoint calls {N : Type} `{Network N} {A : Type} (p : setup A) (n : N)
  : list call :=
  match p with
  | Done _ => []
  | Call c k => let '(err, n') := answer c n in c :: calls (k err) n'
  end.

End pool.

(** ** A Redis endpoint to dial

    One server address, with the password it requires (the empty string:
    none) and its number of databases, and the state of the one
    connection being set up.  After the Redis reference: a client of a
    server that requires a password is answered NOAUTH until it has sent
    the right AUTH; AUTH is an error on a server that requires none;
    SELECT is an error outside the database indexes. *)

Module RedisEndpoint.

Record config := { address : string; requirepass : string; databases : Z }.

Inductive link :=
| NotConnected
| Open (authenticated : bool) (selected : Z)
| Closed.

Record net := { cfg : config; conn : link }.

Definition noauth : error := RedisError "NOAUTH Authentication required.".

Definition serve (c : pool.call) (n : net) : option error * net :=
  match c with
  | pool.NetDial network addr =>
      if bool_decide (network = "tcp") && bool_decide (addr = address (cfg n))
      then (None, {| cfg := cfg n;
                     conn := Open (bool_decide (requirepass (cfg n) = "")) 0 |})
      else (Some (TransportError "dial tcp: connect: connection refused"), n)
  | pool.ConnDo cmd =>
      match conn n with
      | Open authenticated selected =>
          match cmd with
          | pool.AUTH password =>
              if bool_decide (requirepass (cfg n) = "")
              then (Some (RedisError "ERR Client sent AUTH, but no password is set"), n)
              else if bool_decide (password = requirepass (cfg n))
              then (None, {| cfg := cfg n; conn := Open true selected |})
              else (Some (RedisError "ERR invalid password"), n)
          | pool.SELECT database =>
              if negb authenticated then (Some noauth, n)
              else if (0 <=? database) && (database <? databases (cfg n))
              then (None, {| cfg := cfg n; conn := Open authenticated database |})
              else (Some (RedisError "ERR DB index is out of range"), n)
          | pool.PING =>
              if authenticated then (None, n) else (Some noauth, n)
          end
      | _ => (Some (TransportError "use of closed network connection"), n)
      end
  | pool.ConnClose =>
      match conn n with
      | Open _ _ => (None, {| cfg := cfg n; conn := Closed |})
      | _ => (Some (TransportError "use of closed network connection"), n)
      end
  end.

#[export] Instance endpoint_network : pool.Network net :=
  {| pool.answer := serve |}.

End RedisEndpoint.

Import RedisServer DecimalCodec errorConn.

(** * Properties *)

(** ** Conversions between the integer types *)

Section Conversions.

Import GoInt.

Lemma uint64_of_int64 (x : Z) : uint64 (int64 x) = uint64 x.
Proof.
  unfold uint64, int64, wrap_unsigned, wrap_signed.
  rewrite Zminus_mod, Zmod_mod, <- Zminus_mod.
  f_equal. lia.
Qed.

Lemma uint64_small (x : Z) : 0 <= x <= MaxUint64 -> uint64 x = x.
Proof.
  unfold uint64, wrap_unsigned, MaxUint64. intros Hx.
  apply Z.mod_small. lia.
Qed.

Lemma int32_small (x : Z) : - 2 ^ 31 <= x < 2 ^ 31 -> int32 x = x.
Proof.
  unfold int32, wrap_signed. intros Hx.
  rewrite Z.mod_small; lia.
Qed.

(** The sum [Increment] forms, read back as a [uint64]. *)
Lemma uint64_wrapping_sum (n d : Z) :
  uint64 (int64 (n + int64 d)) = (n + d) mod 2 ^ 64.
Proof.
  rewrite uint64_of_int64. unfold uint64, wrap_unsigned.
  rewrite Zplus_mod. fold (wrap_unsigned 64 (int64 d)). fold (uint64 (int64 d)).
  rewrite uint64_of_int64. unfold uint64, wrap_unsigned.
  now rewrite <- Zplus_mod.
Qed.

End Conversions.


(** ** Decimal text: what is printed is read back *)

Section DecimalText.

Import GoInt strconv.

Lemma digits_nonempty (u : Decimal.uint) :
  u <> Decimal.Nil ->
  exists a r, NilEmpty.string_of_uint u = String a r /\
              split_sign (String a r) = (false, String a r).
Proof.
  destruct u; intros Hu; try congruence; simpl; eauto.
Qed.

Lemma of_uint_to_uint (p : positive) : Z.of_uint (Pos.to_uint p) = Z.pos p.
Proof.
  unfold Z.of_uint. now rewrite DecimalPos.Unsigned.of_to.
Qed.

Lemma string_of_uint_pos (p : positive) :
  NilZero.string_of_uint (Pos.to_uint p) = NilEmpty.string_of_uint (Pos.to_uint p).
Proof.
  pose proof (DecimalPos.Unsigned.to_uint_nonnil p) as Hnil.
  destruct (Pos.to_uint p); [congruence | reflexivity ..].
Qed.

Lemma ParseInt_FormatInt (n : Z) :
  is_int64 n -> ParseInt (FormatInt n) = (n, None).
Proof.
  unfold is_int64, MinInt64, MaxInt64. intros Hn.
  destruct n as [|p|p]; [reflexivity | |].
  - unfold FormatInt. simpl. rewrite string_of_uint_pos.
    destruct (digits_nonempty (Pos.to_uint p)) as (a & r & Hs & Hsign);
      [apply DecimalPos.Unsigned.to_uint_nonnil |].
    unfold ParseInt. rewrite Hs, Hsign, <- Hs, NilEmpty.usu, of_uint_to_uint.
    unfold MaxInt64.
    destruct (Z.leb_spec (Z.pos p) (2 ^ 63 - 1)); [reflexivity | lia].
  - unfold FormatInt. simpl. rewrite string_of_uint_pos.
    destruct (digits_nonempty (Pos.to_uint p)) as (a & r & Hs & _);
      [apply DecimalPos.Unsigned.to_uint_nonnil |].
    unfold ParseInt. simpl. rewrite Hs, <- Hs, NilEmpty.usu, of_uint_to_uint.
    destruct (Z.leb_spec (Z.pos p) (2 ^ 63)); [reflexivity | lia].
Qed.

Lemma FormatUint_FormatInt (n : Z) : 0 <= n -> FormatUint n = FormatInt n.
Proof.
  intros Hn. destruct n as [|p|p]; [reflexivity | reflexivity | lia].
Qed.

Lemma string2ll_FormatInt (n : Z) :
  is_int64 n -> string2ll (FormatInt n) = Some n.
Proof.
  intros Hn. unfold string2ll.
  now rewrite (ParseInt_FormatInt n Hn), String.eqb_refl.
Qed.

Lemma string2ll_FormatUint (n : Z) :
  0 <= n <= MaxInt64 -> string2ll (FormatUint n) = Some n.
Proof.
  intros Hn. rewrite FormatUint_FormatInt by lia.
  apply string2ll_FormatInt. unfold is_int64, MinInt64, MaxInt64 in *. lia.
Qed.

End DecimalText.


(** ** Running programs *)

Section Running.

Context {C : Type} `{redis.Conn C}.

Lemma run_bind {A B : Type} (p : prog A) (f : A -> prog B) (s : C) :
  run (bind p f) s = run (f (fst (run p s))) (snd (run p s)).
Proof.
  revert s. induction p as [a | c k IH]; intros s; simpl; [reflexivity |].
  destruct (redis.conn_Do c s) as [r s']. apply IH.
Qed.

Lemma trace_bind {A B : Type} (p : prog A) (f : A -> prog B) (s : C) :
  trace (bind p f) s =
  (trace p s ++ trace (f (fst (run p s))) (snd (run p s)))%list.
Proof.
  revert s. induction p as [a | c k IH]; intros s; simpl; [reflexivity |].
  destruct (redis.conn_Do c s) as [r s']. simpl. now rewrite IH.
Qed.

Lemma run_conn_call (c : redis.command) (s : C) :
  run (conn_call c) s = redis.conn_Do c s.
Proof.
  unfold conn_call. simpl. now destruct (redis.conn_Do c s).
Qed.

Lemma result_bind {A B : Type} (p : prog A) (f : A -> prog B) (s : C) :
  result (bind p f) s = result (f (result p s)) (final p s).
Proof. unfold result, final. now rewrite run_bind. Qed.

End Running.

(** ** [redis.Bool] passes an error on *)

Lemma Bool_error (raw : option redis.value) (e : error) :
  redis.Bool (raw, Some e) = (false, Some e).
Proof. destruct raw as [[]|]; reflexivity. Qed.

(** ** The store on any connection *)

Section AnyConnection.

Import GoInt redisstore.

Context {C : Type} `{redis.Conn C} {V : Type} `{Serializer V}.

(** [Replace] with the nil value answers [ErrNotStored] on both of its
    paths, whatever the connection does. *)
Lemma Replace_nil_not_stored (c : RedisStore) (key : string)
    (expires : time.Duration) (s : C) :
  result (Replace c key None expires) s = Some ErrNotStored.
Proof.
  unfold Replace. rewrite result_bind.
  destruct (result (exists_ key) s); simpl; [| reflexivity].
  now rewrite result_bind.
Qed.

(** C4. [Get] answers [ErrCacheMiss] whenever the reply to GET is nil,
    whatever error [Do] returned with it: the nil test comes first, so a
    missing key is a cache miss even when an error is reported too. *)
Theorem Get_nil_reply_is_cache_miss (c : RedisStore) (key : string) (s : C)
    (err : option error) :
  fst (redis.conn_Do (redis.GET key) s) = (None, err) ->
  result (Get c key) s = (None, Some ErrCacheMiss).
Proof.
  intros Hreply. unfold Get. rewrite result_bind.
  unfold result at 2. rewrite run_conn_call, Hreply. reflexivity.
Qed.

(** C6. [Exists] and [SetExpire] return a [bool] and nothing else (the
    programs below are total and have no error component), and the
    boolean is [false] whenever the command they send comes back with an
    error. *)
Theorem Exists_SetExpire_false_on_error (c : RedisStore) (key : string)
    (expires : time.Duration) (s : C) :
  (forall raw e, fst (redis.conn_Do (redis.EXISTS key) s) = (raw, Some e) ->
                 result (Exists c key) s = false) /\
  (forall raw e,
     fst (redis.conn_Do
            (redis.EXPIRE key (redis.ArgInt32 (int32 (expires ÷ time.Second)))) s)
       = (raw, Some e) ->
     result (SetExpire c key expires) s = false).
Proof.
  split; intros raw e Hreply.
  - unfold Exists. rewrite result_bind.
    unfold result at 2. rewrite run_conn_call, Hreply, Bool_error. reflexivity.
  - unfold SetExpire. rewrite result_bind.
    unfold result at 2. rewrite run_conn_call, Hreply, Bool_error. reflexivity.
Qed.

(** C2, as amended.  For a value the codec accepts, [Set]: with DEFAULT
    does what it does with the store's default expiration; with FOREVER
    sends one plain SET; with a positive duration sends one SETEX whose
    seconds argument is the duration divided by a second, rounded down
    and converted to [int32], which is the number of whole seconds
    itself for every duration below 2^31 seconds.  In each case the
    error of that one command is what [Set] returns. *)
Theorem Set_resolves_expiration (c : RedisStore) (key : string)
    (value : option V) (b : string) (expires : time.Duration) :
  Serialize value = (b, None) ->
  Set_ c key value DEFAULT = Set_ c key value (defaultExpiration c) /\
  Set_ c key value FOREVER =
    Do (redis.SET key (redis.ArgBytes b)) (fun r => Ret (snd r)) /\
  (0 < expires ->
   Set_ c key value expires =
     Do (redis.SETEX key (redis.ArgInt32 (int32 (expires ÷ time.Second)))
           (redis.ArgBytes b))
        (fun r => Ret (snd r))) /\
  (0 < expires < 2 ^ 31 * time.Second ->
   Set_ c key value expires =
     Do (redis.SETEX key (redis.ArgInt32 (expires / time.Second))
           (redis.ArgBytes b))
        (fun r => Ret (snd r))).
Proof.
  intros Hb.
  assert (Hpos : 0 < expires ->
     Set_ c key value expires =
       Do (redis.SETEX key (redis.ArgInt32 (int32 (expires ÷ time.Second)))
             (redis.ArgBytes b))
          (fun r => Ret (snd r))).
  { intros Hexp. unfold Set_, invoke, DEFAULT, FOREVER. rewrite Hb.
    destruct (Z.eqb_spec expires 0); [lia |].
    destruct (Z.eqb_spec expires (-1)); [lia |].
    destruct (Z.ltb_spec 0 expires); [reflexivity | lia]. }
  repeat split.
  - unfold Set_, invoke, DEFAULT, FOREVER. rewrite Hb. simpl.
    destruct (Z.eqb_spec (defaultExpiration c) 0) as [-> | Hd0]; [reflexivity |].
    destruct (Z.eqb_spec (defaultExpiration c) (-1)) as [-> | Hd1]; reflexivity.
  - unfold Set_, invoke, DEFAULT, FOREVER. rewrite Hb. reflexivity.
  - exact Hpos.
  - intros Hexp. rewrite Hpos by lia.
    rewrite Z.quot_div_nonneg by (unfold time.Second; lia).
    rewrite int32_small; [reflexivity |].
    unfold time.Second in *. split.
    + pose proof (Z.div_pos expires 1000000000). lia.
    + apply Z.div_lt_upper_bound; lia.
Qed.

End AnyConnection.


(** ** The store on a healthy connection to the server *)

Section OnServer.

Import GoInt redisstore.

Context {V : Type} `{Serializer V}.

Implicit Types (db : keyspace) (c : RedisStore) (key : string).

Lemma run_exists_ db key :
  run (exists_ key) db = (bool_decide (is_Some (db !! key)), db).
Proof.
  unfold exists_. cbn. destruct (db !! key) as [e|]; reflexivity.
Qed.

Lemma run_exists_present db key e :
  db !! key = Some e -> run (exists_ key) db = (true, db).
Proof.
  intros He. rewrite run_exists_, He. reflexivity.
Qed.

Lemma run_exists_absent db key :
  db !! key = None -> run (exists_ key) db = (false, db).
Proof.
  intros He. rewrite run_exists_, He. reflexivity.
Qed.

(** A write that reports no error has stored the serialized value under
    the key. *)
Lemma invoke_success c key (value : option V) expires db :
  result (invoke c key value expires) db = None ->
  exists t, final (invoke c key value expires) db
            = <[key := Entry (fst (Serialize value)) t]> db.
Proof.
  unfold result, final, invoke.
  destruct (Serialize value) as [b [e|]]; [discriminate |].
  destruct (0 <? _); cbn.
  - destruct (string2ll _) as [secs|]; [| discriminate].
    destruct (secs <=? 0); [discriminate |]. cbn. eauto.
  - eauto.
Qed.

Lemma run_Add_present c key (value : option V) expires db e :
  db !! key = Some e ->
  run (Add c key value expires) db = (Some ErrNotStored, db).
Proof.
  intros He. unfold Add.
  now rewrite run_bind, (run_exists_present db key e He).
Qed.

Lemma run_Add_absent c key (value : option V) expires db :
  db !! key = None ->
  run (Add c key value expires) db = run (invoke c key value expires) db.
Proof.
  intros He. unfold Add.
  now rewrite run_bind, (run_exists_absent db key He).
Qed.

(** C5. After an [Add] that reported no error, a second [Add] on the
    same key, run next on the same server, returns [ErrNotStored] and
    leaves the keyspace as it was; the key holds the serialized first
    value. *)
Theorem Add_twice_keeps_first c key (v1 v2 : option V)
    (expires1 expires2 : time.Duration) db :
  result (Add c key v1 expires1) db = None ->
  result (Add c key v2 expires2) (final (Add c key v1 expires1) db)
    = Some ErrNotStored /\
  final (Add c key v2 expires2) (final (Add c key v1 expires1) db)
    = final (Add c key v1 expires1) db /\
  payload <$> final (Add c key v1 expires1) db !! key
    = Some (fst (Serialize v1)).
Proof.
  intros Hok. unfold result, final in *.
  destruct (db !! key) as [e|] eqn:He.
  { rewrite (run_Add_present c key v1 expires1 db e He) in Hok. discriminate. }
  rewrite (run_Add_absent c key v1 expires1 db He) in *.
  destruct (invoke_success c key v1 expires1 db Hok) as [t Hfinal].
  unfold final in Hfinal. rewrite Hfinal.
  assert (Hnow : <[key := Entry (Serialize v1).1 t]> db !! key
                 = Some (Entry (Serialize v1).1 t)) by apply lookup_insert_eq.
  rewrite (run_Add_present c key v2 expires2 _ _ Hnow), Hnow.
  repeat split.
Qed.

Lemma trace_exists_ db key : trace (exists_ key) db = [redis.EXISTS key].
Proof.
  unfold exists_. cbn. destruct (db !! key); reflexivity.
Qed.

Lemma run_Replace_nil_present c key expires db e :
  db !! key = Some e ->
  run (Replace c key (None : option V) expires) db
    = (Some ErrNotStored, final (Set_ c key (None : option V) expires) db).
Proof.
  intros He. unfold Replace, Set_, final.
  rewrite run_bind, (run_exists_present db key e He). cbn [fst snd negb].
  rewrite run_bind. reflexivity.
Qed.

(** C3. On a key the server holds, the existence check of [Replace]
    passes, and [Replace] with the nil value still returns
    [ErrNotStored]. *)
Theorem Replace_nil_on_existing_key c key (expires : time.Duration) db :
  is_Some (db !! key) ->
  result (exists_ key) db = true /\
  result (Replace c key (None : option V) expires) db = Some ErrNotStored.
Proof.
  intros [e He]. split.
  - unfold result. now rewrite (run_exists_present db key e He).
  - apply Replace_nil_not_stored.
Qed.

(** A positive duration under one second makes the write a SETEX of 0
    seconds, which the server refuses: the keyspace is as it was,
    whatever the codec does with the value. *)
Lemma invoke_subsecond_refused c key (value : option V)
    (expires : time.Duration) db :
  0 < expires < time.Second ->
  final (invoke c key value expires) db = db.
Proof.
  unfold time.Second. intros Hexp. unfold final, invoke, DEFAULT, FOREVER.
  destruct (Z.eqb_spec expires 0); [lia |].
  destruct (Z.eqb_spec expires (-1)); [lia |].
  destruct (Serialize value) as [b [e|]]; [reflexivity |].
  destruct (Z.ltb_spec 0 expires); [| lia].
  replace (expires ÷ time.Second) with 0
    by (symmetry; apply Z.quot_small; unfold time.Second; lia).
  reflexivity.
Qed.

Lemma Replace_nil_subsecond_keeps_keyspace c key (expires : time.Duration) db :
  is_Some (db !! key) ->
  0 < expires < time.Second ->
  run (Replace c key (None : option V) expires) db = (Some ErrNotStored, db).
Proof.
  intros [e He] Hexp.
  rewrite (run_Replace_nil_present c key expires db e He).
  unfold Set_. now rewrite invoke_subsecond_refused.
Qed.

(** C8, as amended.  On a key the server holds, [Replace] with the nil
    value sends, after its existence check and before it looks at the
    value, the very write [Set] would send, and then returns
    [ErrNotStored]: the keyspace ends as [Set] would leave it.  Whenever
    that write reports no error, the key holds the serialized nil
    value. *)
Theorem Replace_nil_writes_before_check c key (expires : time.Duration) db :
  is_Some (db !! key) ->
  result (Replace c key (None : option V) expires) db = Some ErrNotStored /\
  trace (Replace c key (None : option V) expires) db
    = redis.EXISTS key :: trace (Set_ c key (None : option V) expires) db /\
  final (Replace c key (None : option V) expires) db
    = final (Set_ c key (None : option V) expires) db /\
  (result (Set_ c key (None : option V) expires) db = None ->
   payload <$> final (Replace c key (None : option V) expires) db !! key
     = Some (fst (Serialize (None : option V)))).
Proof.
  intros [e He].
  assert (Hfinal : final (Replace c key (None : option V) expires) db
                   = final (Set_ c key (None : option V) expires) db).
  { unfold final at 1. now rewrite (run_Replace_nil_present c key expires db e He). }
  repeat split.
  - unfold result. now rewrite (run_Replace_nil_present c key expires db e He).
  - unfold Replace, Set_. rewrite trace_bind, trace_exists_.
    rewrite (run_exists_present db key e He). cbn [fst snd negb app].
    f_equal. rewrite trace_bind. cbn. apply app_nil_r.
  - exact Hfinal.
  - intros Hok. rewrite Hfinal.
    destruct (invoke_success c key None expires db Hok) as [t Ht].
    unfold Set_. rewrite Ht, lookup_insert_eq. reflexivity.
Qed.

(** What [Increment] does on a key whose bytes Go reads as the integer
    [n]: one GET, one plain SET of the wrapped sum. *)
Lemma Increment_on_integer c key (delta : Z) db e (n : Z) :
  db !! key = Some e ->
  strconv.ParseInt (payload e) = (n, None) ->
  run (Increment c key delta) db
    = ((uint64 (int64 (n + int64 delta)), None),
       <[key := Entry (strconv.FormatInt (int64 (n + int64 delta))) None]> db) /\
  trace (Increment c key delta) db
    = [redis.GET key; redis.SET key (redis.ArgInt64 (int64 (n + int64 delta)))].
Proof.
  intros He Hn. unfold Increment. cbn. rewrite He. cbn. rewrite Hn. cbn.
  split; reflexivity.
Qed.

(** C9. On a key whose value reads as an integer, [Increment] succeeds,
    having sent a GET and then a SET of two arguments, the key and the
    new value, with no expiration; the server drops the key's time to
    live on such a SET, so the entry no longer expires. *)
Theorem Increment_drops_ttl c key (delta : Z) db e (n : Z) :
  db !! key = Some e ->
  strconv.ParseInt (payload e) = (n, None) ->
  snd (result (Increment c key delta) db) = None /\
  trace (Increment c key delta) db
    = [redis.GET key; redis.SET key (redis.ArgInt64 (int64 (n + int64 delta)))] /\
  ttl <$> final (Increment c key delta) db !! key = Some None.
Proof.
  intros He Hn.
  destruct (Increment_on_integer c key delta db e n He Hn) as [Hrun Htrace].
  unfold result, final. rewrite Hrun, Htrace. cbn [fst snd].
  rewrite lookup_insert_eq. repeat split.
Qed.

(** C10. On a key whose value reads as the integer [n], [Increment] by
    [delta] returns no error and the value [(n + delta) mod 2^64]: the
    sum is formed in [int64] with wrap-around, stored as such, and
    returned converted to [uint64]. *)
Theorem Increment_wraps c key (delta : Z) db e (n : Z) :
  db !! key = Some e ->
  strconv.ParseInt (payload e) = (n, None) ->
  result (Increment c key delta) db = ((n + delta) mod 2 ^ 64, None) /\
  payload <$> final (Increment c key delta) db !! key
    = Some (strconv.FormatInt (int64 (n + int64 delta))).
Proof.
  intros He Hn.
  destruct (Increment_on_integer c key delta db e n He Hn) as [Hrun _].
  unfold result, final. rewrite Hrun. cbn [fst snd].
  rewrite lookup_insert_eq, uint64_wrapping_sum. split; reflexivity.
Qed.

(** DECRBY on a key holding the integer [old], by an amount the server
    reads as [decr], when the difference stays in range. *)
Lemma execute_DECRBY db key (amount : redis.arg) (e : entry) (old decr : Z) :
  db !! key = Some e ->
  payload e = strconv.FormatInt old ->
  is_int64 old ->
  string2ll (redis.writeArg amount) = Some decr ->
  0 <= decr <= old ->
  execute (redis.DECRBY key amount) db
    = (integer (old - decr),
       <[key := Entry (strconv.FormatInt (old - decr)) (ttl e)]> db).
Proof.
  intros He Hpayload Hold Hdecr Hle. unfold execute.
  rewrite Hdecr, He, Hpayload, (string2ll_FormatInt old Hold).
  unfold is_int64, MinInt64, MaxInt64 in *.
  destruct (Z.eqb_spec decr (- 2 ^ 63)); [lia |].
  assert (Hno : would_overflow old (- decr) = false).
  { unfold would_overflow, MinInt64, MaxInt64.
    destruct (Z.ltb_spec old 0); [lia |].
    destruct (Z.ltb_spec 0 (- decr)); [lia |].
    now rewrite andb_false_r. }
  rewrite Hno. reflexivity.
Qed.

Lemma Decrement_on_counter c key (delta : Z) db (e : entry) (n : Z) :
  db !! key = Some e ->
  payload e = strconv.FormatInt n ->
  0 <= n <= MaxInt64 ->
  is_uint64 delta ->
  run (Decrement c key delta) db
    = ((Z.max 0 (n - delta), None),
       <[key := Entry (strconv.FormatInt (Z.max 0 (n - delta))) (ttl e)]> db).
Proof.
  intros He Hpayload Hn Hdelta.
  assert (Hint : is_int64 n) by (unfold is_int64, MinInt64, MaxInt64 in *; lia).
  unfold Decrement.
  rewrite run_bind, (run_exists_present db key e He). cbn [fst snd negb].
  rewrite run_bind, run_conn_call. cbn [redis.conn_Do server_conn execute].
  rewrite He. cbn [fst snd redis.Int64]. rewrite Hpayload, (ParseInt_FormatInt n Hint).
  rewrite uint64_small by (unfold MaxUint64, MaxInt64 in *; lia).
  replace (bool_decide (None = None :> option error)) with true by reflexivity.
  cbn [andb].
  destruct (Z.ltb_spec n delta) as [Hlt | Hge].
  - rewrite run_bind, run_conn_call. cbn [redis.conn_Do server_conn].
    rewrite (execute_DECRBY db key (redis.ArgInt64 n) e n n He Hpayload Hint)
      by (try apply string2ll_FormatInt; auto; lia).
    cbn [fst snd integer redis.Int64 run].
    replace (n - n) with 0 by lia. replace (Z.max 0 (n - delta)) with 0 by lia.
    reflexivity.
  - rewrite run_bind, run_conn_call. cbn [redis.conn_Do server_conn].
    rewrite (execute_DECRBY db key (redis.ArgUint64 delta) e n delta He Hpayload Hint)
      by (try apply string2ll_FormatUint; unfold is_uint64 in *; lia).
    cbn [fst snd integer redis.Int64 run].
    replace (Z.max 0 (n - delta)) with (n - delta) by lia.
    rewrite uint64_small by (unfold is_uint64, MaxUint64, MaxInt64 in *; lia).
    reflexivity.
Qed.

(** C1, as amended.  On a key holding a non-negative integer [n],
    [Decrement] by [delta] returns no error and [n - delta] when
    [delta <= n], [0] when [delta > n]; the key then holds that
    value. *)
Theorem Decrement_saturates c key (delta : Z) db (n : Z) :
  holds_integer db key n ->
  0 <= n <= MaxInt64 ->
  is_uint64 delta ->
  result (Decrement c key delta) db
    = (if delta <=? n then n - delta else 0, None) /\
  holds_integer (final (Decrement c key delta) db) key
    (if delta <=? n then n - delta else 0).
Proof.
  unfold holds_integer. intros Hholds Hn Hdelta.
  destruct (db !! key) as [e|] eqn:He; [| discriminate].
  injection Hholds as Hpayload.
  unfold result, final.
  rewrite (Decrement_on_counter c key delta db e n He Hpayload Hn Hdelta).
  cbn [fst snd]. rewrite lookup_insert_eq. cbn.
  destruct (Z.leb_spec delta n).
  - replace (Z.max 0 (n - delta)) with (n - delta) by lia. split; reflexivity.
  - replace (Z.max 0 (n - delta)) with 0 by lia. split; reflexivity.
Qed.

End OnServer.


(** ** Programs on one key, and the keys of a Service *)

Section OneKey.

Lemma only_key_bind {A B : Type} (key : string) (p : prog A) (f : A -> prog B) :
  only_key key p -> (forall a, only_key key (f a)) -> only_key key (bind p f).
Proof.
  intros Hp Hf. induction Hp as [a | c k Hc Hk IH]; simpl; [apply Hf |].
  apply only_key_Do; assumption.
Qed.

Lemma only_key_call (key : string) (c : redis.command) :
  command_key c = Some key -> only_key key (conn_call c).
Proof.
  intros Hc. apply only_key_Do; [assumption | intros r; apply only_key_Ret].
Qed.

(** On any connection, such a program sends commands on its key only. *)
Lemma only_key_trace {C : Type} `{redis.Conn C} {A : Type} (key : string)
    (p : prog A) (s : C) :
  only_key key p ->
  Forall (fun c => command_key c = Some key) (trace p s).
Proof.
  intros Hp. revert s. induction Hp as [a | c k Hc Hk IH]; intros s; simpl.
  - constructor.
  - destruct (redis.conn_Do c s) as [r s']. constructor; [assumption | apply IH].
Qed.

(** A command leaves every key but its own as it was. *)
Lemma execute_other_key (c : redis.command) (key other : string) (db : keyspace) :
  command_key c = Some key -> other <> key ->
  snd (execute c db) !! other = db !! other.
Proof.
  intros Hc Hne.
  destruct c; simpl in Hc; try discriminate; injection Hc as ->; simpl;
    repeat match goal with
           | |- context [match ?x with _ => _ end] => destruct x; simpl
           end;
    rewrite ?lookup_insert_ne, ?lookup_delete_ne by congruence; reflexivity.
Qed.

Lemma only_key_other_key {A : Type} (key other : string) (p : prog A)
    (db : keyspace) :
  only_key key p -> other <> key -> final p db !! other = db !! other.
Proof.
  intros Hp Hne. revert db. unfold final.
  induction Hp as [a | c k Hc Hk IH]; intros db; simpl; [reflexivity |].
  pose proof (execute_other_key c key other db Hc Hne) as Hstep.
  destruct (execute c db) as [r db']. simpl in Hstep. now rewrite IH.
Qed.

Lemma length_append (s1 s2 : string) :
  String.length (s1 +:+ s2) = (String.length s1 + String.length s2)%nat.
Proof.
  induction s1 as [| a s1 IH]; simpl; [reflexivity | now rewrite IH].
Qed.

Lemma append_inj_r (p1 p2 s : string) : p1 +:+ s = p2 +:+ s -> p1 = p2.
Proof.
  revert p2. induction p1 as [| a p1 IH]; intros [| b p2] Heq; simpl in Heq.
  - reflexivity.
  - apply (f_equal String.length) in Heq.
    rewrite ?length_append in Heq. simpl in Heq. rewrite ?length_append in Heq. lia.
  - apply (f_equal String.length) in Heq.
    rewrite ?length_append in Heq. simpl in Heq. rewrite ?length_append in Heq. lia.
  - injection Heq as -> Heq. f_equal. now apply IH.
Qed.

Lemma cacheKey_prefix_inj (a b : goredis.Service) (key : string) :
  goredis.cacheKey a key = goredis.cacheKey b key ->
  goredis.prefix a = goredis.prefix b.
Proof.
  unfold goredis.cacheKey. intros Heq.
  eapply append_inj_r. exact Heq.
Qed.

(** The reply to a command, and what its key holds afterwards, depend on
    what the key held and on nothing else in the keyspace. *)
Lemma execute_same_entry (c : redis.command) (key : string) (db1 db2 : keyspace) :
  command_key c = Some key -> db1 !! key = db2 !! key ->
  fst (execute c db1) = fst (execute c db2) /\
  snd (execute c db1) !! key = snd (execute c db2) !! key.
Proof.
  intros Hc Hentry.
  destruct c; simpl in Hc; try discriminate; injection Hc as ->;
    destruct (db2 !! key) as [e|] eqn:Hentry2; simpl;
    rewrite ?Hentry, ?Hentry2;
    repeat match goal with
           | |- context [match ?x with _ => _ end] => destruct x; simpl
           end;
    simpl; rewrite ?lookup_insert_eq, ?lookup_delete_eq, ?Hentry, ?Hentry2; auto.
Qed.

Lemma only_key_same_entry {A : Type} (key : string) (p : prog A)
    (db1 db2 : keyspace) :
  only_key key p -> db1 !! key = db2 !! key ->
  result p db1 = result p db2.
Proof.
  intros Hp. revert db1 db2. unfold result.
  induction Hp as [a | c k Hc Hk IH]; intros db1 db2 Hentry; simpl; [reflexivity |].
  destruct (execute_same_entry c key db1 db2 Hc Hentry) as [Hreply Hnext].
  destruct (execute c db1) as [r1 db1'], (execute c db2) as [r2 db2'].
  simpl in Hreply, Hnext. subst r2. now apply IH.
Qed.

Ltac only_key_step :=
  first
    [ apply only_key_Ret
    | apply only_key_call; reflexivity
    | apply only_key_bind; [| intros ?]
    | apply only_key_Do; [reflexivity | intros ?]
    | match goal with
      | |- only_key _ (match ?x with _ => _ end) => destruct x
      end ].

Lemma perform_only_key {V : Type} `{Serializer V} (s : goredis.Service)
    (m : goredis.call V) :
  only_key (goredis.cacheKey s (goredis.call_key m)) (goredis.perform s m).
Proof.
  destruct m; cbn [goredis.perform goredis.call_key];
    unfold goredis.Get, goredis.Set_, goredis.Add, goredis.Replace,
      goredis.Delete, goredis.Increment, goredis.Decrement, goredis.Exists,
      goredis.SetExpire, redisstore.Get, redisstore.Set_, redisstore.Add,
      redisstore.Replace, redisstore.Delete, redisstore.Increment,
      redisstore.Decrement, redisstore.Exists, redisstore.SetExpire,
      redisstore.invoke, redisstore.exists_;
    cbv zeta; repeat only_key_step.
Qed.

(** C7. Every Service method that takes a key is the store method of
    the same name run on the key [prefix + ":" + key], and so sends, on
    any connection, only commands on that key; for the prefix "app" and
    the key "u" that is "app:u".  On the server the methods reach that
    key: a [Set] that reports no error leaves the serialized value
    there, [Get] and [Exists] read it, [Delete] removes it, [Increment]
    counts on it.  Two Services of distinct prefixes get distinct store
    keys from one caller key, so what a method of the one does on that
    key leaves the entry of the other as it was, and every method of the
    other on that key returns what it would have returned had the first
    not run. *)
Theorem Service_keys_prefixed_and_isolated {V : Type} `{Serializer V}
    {C : Type} `{redis.Conn C} (a b : goredis.Service)
    (m m' : goredis.call V) (s : C) (db : keyspace) :
  goredis.cacheKey a (goredis.call_key m)
    = goredis.prefix a +:+ ":" +:+ goredis.call_key m /\
  goredis.cacheKey (goredis.NewService "app") "u" = "app:u" /\
  Forall (fun c => command_key c = Some (goredis.cacheKey a (goredis.call_key m)))
         (trace (goredis.perform a m) s) /\
  (goredis.prefix a <> goredis.prefix b ->
   goredis.call_key m' = goredis.call_key m ->
   goredis.cacheKey a (goredis.call_key m) <> goredis.cacheKey b (goredis.call_key m) /\
   final (goredis.perform a m) db !! goredis.cacheKey b (goredis.call_key m)
     = db !! goredis.cacheKey b (goredis.call_key m) /\
   result (goredis.perform b m') (final (goredis.perform a m) db)
     = result (goredis.perform b m') db) /\
  (forall (key : string) (value : option V) (expire : time.Duration) (data : Z),
     goredis.Get a key
       = redisstore.Get (goredis.store a) (goredis.prefix a +:+ ":" +:+ key) /\
     goredis.Set_ a key value expire
       = redisstore.Set_ (goredis.store a) (goredis.prefix a +:+ ":" +:+ key)
           value expire /\
     goredis.Add a key value expire
       = redisstore.Add (goredis.store a) (goredis.prefix a +:+ ":" +:+ key)
           value expire /\
     goredis.Replace a key value expire
       = redisstore.Replace (goredis.store a) (goredis.prefix a +:+ ":" +:+ key)
           value expire /\
     goredis.Delete a key
       = redisstore.Delete (goredis.store a) (goredis.prefix a +:+ ":" +:+ key) /\
     goredis.Increment a key data
       = redisstore.Increment (goredis.store a)
           (goredis.prefix a +:+ ":" +:+ key) data /\
     goredis.Decrement a key data
       = redisstore.Decrement (goredis.store a)
           (goredis.prefix a +:+ ":" +:+ key) data /\
     goredis.Exists a key
       = redisstore.Exists (goredis.store a) (goredis.prefix a +:+ ":" +:+ key) /\
     goredis.SetExpire a key expire
       = redisstore.SetExpire (goredis.store a)
           (goredis.prefix a +:+ ":" +:+ key) expire) /\
  (forall (key : string) (value : option V) (expire : time.Duration),
     result (goredis.Set_ a key value expire) db = None ->
     payload <$> final (goredis.Set_ a key value expire) db
                   !! (goredis.prefix a +:+ ":" +:+ key)
       = Some (fst (Serialize value))) /\
  (forall key : string,
     result (goredis.Get (V := V) a key) db
       = match db !! (goredis.prefix a +:+ ":" +:+ key) with
         | Some e => Deserialize (payload e)
         | None => (None, Some ErrCacheMiss)
         end /\
     result (goredis.Exists a key) db
       = bool_decide (is_Some (db !! (goredis.prefix a +:+ ":" +:+ key)))) /\
  (forall key : string,
     is_Some (db !! (goredis.prefix a +:+ ":" +:+ key)) ->
     run (goredis.Delete a key) db
       = (None, delete (goredis.prefix a +:+ ":" +:+ key) db)) /\
  (forall (key : string) (data : Z) (e : entry) (n : Z),
     db !! (goredis.prefix a +:+ ":" +:+ key) = Some e ->
     strconv.ParseInt (payload e) = (n, None) ->
     result (goredis.Increment a key data) db = ((n + data) mod 2 ^ 64, None) /\
     payload <$> final (goredis.Increment a key data) db
                   !! (goredis.prefix a +:+ ":" +:+ key)
       = Some (strconv.FormatInt (GoInt.int64 (n + GoInt.int64 data)))).
Proof.
  split; [reflexivity |]. split; [reflexivity |].
  split; [apply only_key_trace, perform_only_key |].
  split.
  { intros Hprefix Hkey.
    assert (Hne : goredis.cacheKey b (goredis.call_key m)
                  <> goredis.cacheKey a (goredis.call_key m)).
    { intros Heq. apply Hprefix. symmetry. eapply cacheKey_prefix_inj, Heq. }
    assert (Hframe : final (goredis.perform a m) db
                       !! goredis.cacheKey b (goredis.call_key m)
                     = db !! goredis.cacheKey b (goredis.call_key m)).
    { apply (only_key_other_key (goredis.cacheKey a (goredis.call_key m)));
        [apply perform_only_key | exact Hne]. }
    split; [congruence |]. split; [exact Hframe |].
    apply (only_key_same_entry (goredis.cacheKey b (goredis.call_key m)));
      [rewrite <- Hkey; apply perform_only_key | exact Hframe]. }
  split; [intros key value expire data; repeat split |].
  split.
  { intros key value expire Hok.
    unfold goredis.Set_, redisstore.Set_, goredis.cacheKey in *.
    destruct (invoke_success _ _ value expire db Hok) as [t Ht].
    rewrite Ht, lookup_insert_eq. reflexivity. }
  split.
  { intros key.
    unfold result, goredis.Get, goredis.Exists, redisstore.Get, redisstore.Exists,
      goredis.cacheKey.
    cbn. destruct (db !! (goredis.prefix a +:+ ":" +:+ key)); split; reflexivity. }
  split.
  { intros key [e He]. unfold goredis.Delete, redisstore.Delete, goredis.cacheKey.
    rewrite run_bind, (run_exists_present db _ e He). cbn. rewrite He.
    reflexivity. }
  intros key data e n He Hn.
  unfold goredis.Increment, goredis.cacheKey.
  destruct (Increment_on_integer (goredis.store a) _ data db e n He Hn)
    as [Hrun _].
  unfold result, final. rewrite Hrun. cbn [fst snd].
  rewrite lookup_insert_eq, uint64_wrapping_sum. split; reflexivity.
Qed.

End OneKey.

(** * Concrete runs

    The theorems above at explicit inputs, with the decimal codec, and
    the inputs at which the unamended statements fail. *)

Section ConcreteRuns.

Import GoInt redisstore.

Lemma Get_nil_reply_is_cache_miss_witness :
  fst (redis.conn_Do (redis.GET "k") {| err := errPoolClosed |})
    = (None, Some errPoolClosed) /\
  result (Get (V := Z) (NewRedisCacheWithPool time.Minute) "k")
         {| err := errPoolClosed |}
    = (None, Some ErrCacheMiss).
Proof.
  split; [reflexivity |].
  apply (Get_nil_reply_is_cache_miss (V := Z) (NewRedisCacheWithPool time.Minute)
           "k" {| err := errPoolClosed |} (Some errPoolClosed)).
  reflexivity.
Defined.

Lemma Exists_SetExpire_false_on_error_witness :
  result (Exists (NewRedisCacheWithPool time.Minute) "k") {| err := errPoolClosed |}
    = false /\
  result (SetExpire (NewRedisCacheWithPool time.Minute) "k" time.Minute)
         {| err := errPoolClosed |}
    = false.
Proof.
  destruct (Exists_SetExpire_false_on_error (NewRedisCacheWithPool time.Minute)
              "k" time.Minute {| err := errPoolClosed |}) as [HExists HSetExpire].
  split.
  - apply (HExists None errPoolClosed). reflexivity.
  - apply (HSetExpire None errPoolClosed). reflexivity.
Defined.

(** Counterexample for C2, at a duration of 2^31 seconds: the seconds argument of the
    SETEX is not that number of whole seconds but -2^31. *)
Lemma Set_seconds_counterexample :
  0 < 2147483648 * time.Second /\
  is_int64 (2147483648 * time.Second) /\
  (2147483648 * time.Second) / time.Second = 2147483648 /\
  Set_ (NewRedisCacheWithPool time.Minute) "k" (Some 4) (2147483648 * time.Second)
    = Do (redis.SETEX "k" (redis.ArgInt32 (-2147483648)) (redis.ArgBytes "4"))
         (fun r => Ret (snd r)).
Proof.
  repeat split; try reflexivity; vm_compute; discriminate.
Defined.

Lemma Set_resolves_expiration_witness :
  Serialize (Some 4) = ("4", None) /\
  Set_ (NewRedisCacheWithPool time.Minute) "k" (Some 4) (90 * time.Second)
    = Do (redis.SETEX "k" (redis.ArgInt32 90) (redis.ArgBytes "4"))
         (fun r => Ret (snd r)).
Proof.
  assert (Hcodec : Serialize (Some 4) = ("4", None)) by reflexivity.
  split; [exact Hcodec |].
  destruct (Set_resolves_expiration (NewRedisCacheWithPool time.Minute) "k"
              (Some 4) "4" (90 * time.Second) Hcodec)
    as (_ & _ & _ & Hbounded).
  apply Hbounded. unfold time.Second. lia.
Defined.

Lemma Replace_nil_on_existing_key_witness :
  is_Some (({["k" := Entry "7" None]} : keyspace) !! "k") /\
  result (Replace (NewRedisCacheWithPool time.Minute) "k" (None : option Z) time.Minute)
         ({["k" := Entry "7" None]} : keyspace)
    = Some ErrNotStored.
Proof.
  assert (Hpresent : is_Some (({["k" := Entry "7" None]} : keyspace) !! "k"))
    by (exists (Entry "7" None); reflexivity).
  split; [exact Hpresent |].
  apply (Replace_nil_on_existing_key (V := Z) (NewRedisCacheWithPool time.Minute)
           "k" time.Minute _ Hpresent).
Defined.

Lemma Add_twice_keeps_first_witness :
  result (Add (NewRedisCacheWithPool time.Minute) "k" (Some 1) FOREVER) (∅ : keyspace)
    = None /\
  result (Add (NewRedisCacheWithPool time.Minute) "k" (Some 2) FOREVER)
         (final (Add (NewRedisCacheWithPool time.Minute) "k" (Some 1) FOREVER)
                (∅ : keyspace))
    = Some ErrNotStored /\
  payload <$> final (Add (NewRedisCacheWithPool time.Minute) "k" (Some 1) FOREVER)
                    (∅ : keyspace) !! "k"
    = Some "1".
Proof.
  assert (Hfirst : result (Add (NewRedisCacheWithPool time.Minute) "k" (Some 1) FOREVER)
                          (∅ : keyspace) = None) by reflexivity.
  destruct (Add_twice_keeps_first (NewRedisCacheWithPool time.Minute) "k"
              (Some 1) (Some 2) FOREVER FOREVER ∅ Hfirst) as (Hsecond & _ & Hkept).
  split; [exact Hfirst | split; [exact Hsecond | exact Hkept]].
Defined.

(** Counterexample for C8, at a duration of half a second: the SETEX carries 0
    seconds, the server refuses it, and the entry is what it was, not
    the serialized nil value. *)
Lemma Replace_nil_counterexample :
  is_Some (({["k" := Entry "7" (Some 30)]} : keyspace) !! "k") /\
  Serialize (None : option Z) = ("null", None) /\
  result (Replace (NewRedisCacheWithPool time.Minute) "k" (None : option Z)
            (500 * time.Millisecond))
         ({["k" := Entry "7" (Some 30)]} : keyspace)
    = Some ErrNotStored /\
  trace (Replace (NewRedisCacheWithPool time.Minute) "k" (None : option Z)
           (500 * time.Millisecond))
        ({["k" := Entry "7" (Some 30)]} : keyspace)
    = [redis.EXISTS "k";
       redis.SETEX "k" (redis.ArgInt32 0) (redis.ArgBytes "null")] /\
  final (Replace (NewRedisCacheWithPool time.Minute) "k" (None : option Z)
           (500 * time.Millisecond))
        ({["k" := Entry "7" (Some 30)]} : keyspace) !! "k"
    = Some (Entry "7" (Some 30)) /\
  payload <$> final (Replace (NewRedisCacheWithPool time.Minute) "k"
                       (None : option Z) (500 * time.Millisecond))
                    ({["k" := Entry "7" (Some 30)]} : keyspace) !! "k"
    <> Some (fst (Serialize (None : option Z))).
Proof.
  split; [exists (Entry "7" (Some 30)); reflexivity |].
  repeat split; vm_compute; congruence.
Defined.

Lemma Replace_nil_writes_before_check_witness :
  is_Some (({["k" := Entry "7" (Some 30)]} : keyspace) !! "k") /\
  result (Set_ (NewRedisCacheWithPool time.Minute) "k" (None : option Z) FOREVER)
         ({["k" := Entry "7" (Some 30)]} : keyspace)
    = None /\
  result (Replace (NewRedisCacheWithPool time.Minute) "k" (None : option Z) FOREVER)
         ({["k" := Entry "7" (Some 30)]} : keyspace)
    = Some ErrNotStored /\
  payload <$> final (Replace (NewRedisCacheWithPool time.Minute) "k"
                       (None : option Z) FOREVER)
                    ({["k" := Entry "7" (Some 30)]} : keyspace) !! "k"
    = Some "null".
Proof.
  assert (Hpresent : is_Some (({["k" := Entry "7" (Some 30)]} : keyspace) !! "k"))
    by (exists (Entry "7" (Some 30)); reflexivity).
  assert (Hwrite : result (Set_ (NewRedisCacheWithPool time.Minute) "k"
                             (None : option Z) FOREVER)
                          ({["k" := Entry "7" (Some 30)]} : keyspace) = None)
    by reflexivity.
  destruct (Replace_nil_writes_before_check (V := Z)
              (NewRedisCacheWithPool time.Minute) "k" FOREVER _ Hpresent)
    as (Hresult & _ & _ & Hstored).
  split; [exact Hpresent | split; [exact Hwrite | split; [exact Hresult |]]].
  exact (Hstored Hwrite).
Defined.

Lemma Increment_drops_ttl_witness :
  ({["k" := Entry "41" (Some 30)]} : keyspace) !! "k" = Some (Entry "41" (Some 30)) /\
  strconv.ParseInt "41" = (41, None) /\
  trace (Increment (NewRedisCacheWithPool time.Minute) "k" 1)
        ({["k" := Entry "41" (Some 30)]} : keyspace)
    = [redis.GET "k"; redis.SET "k" (redis.ArgInt64 42)] /\
  ttl <$> final (Increment (NewRedisCacheWithPool time.Minute) "k" 1)
                ({["k" := Entry "41" (Some 30)]} : keyspace) !! "k"
    = Some None.
Proof.
  assert (Hentry : ({["k" := Entry "41" (Some 30)]} : keyspace) !! "k"
                   = Some (Entry "41" (Some 30))) by reflexivity.
  assert (Hparse : strconv.ParseInt "41" = (41, None)) by reflexivity.
  destruct (Increment_drops_ttl (NewRedisCacheWithPool time.Minute) "k" 1 _
              (Entry "41" (Some 30)) 41 Hentry Hparse)
    as (_ & Htrace & Httl).
  split; [exact Hentry | split; [exact Hparse | split; [exact Htrace | exact Httl]]].
Defined.

Lemma Increment_wraps_witness :
  ({["k" := Entry "-1" None]} : keyspace) !! "k" = Some (Entry "-1" None) /\
  strconv.ParseInt "-1" = (-1, None) /\
  result (Increment (NewRedisCacheWithPool time.Minute) "k" 18446744073709551615)
         ({["k" := Entry "-1" None]} : keyspace)
    = (18446744073709551614, None).
Proof.
  assert (Hentry : ({["k" := Entry "-1" None]} : keyspace) !! "k"
                   = Some (Entry "-1" None)) by reflexivity.
  assert (Hparse : strconv.ParseInt "-1" = (-1, None)) by reflexivity.
  destruct (Increment_wraps (NewRedisCacheWithPool time.Minute) "k"
              18446744073709551615 _ (Entry "-1" None) (-1) Hentry Hparse)
    as (Hresult & _).
  split; [exact Hentry | split; [exact Hparse | exact Hresult]].
Defined.

(** Counterexample for C1, on a key holding -5: [Decrement] by 3, which is greater,
    does not return 0; it sends DECRBY 3 and returns -8 read as a
    [uint64]. *)
Lemma Decrement_negative_counterexample :
  holds_integer ({["k" := Entry "-5" None]} : keyspace) "k" (-5) /\
  is_int64 (-5) /\ is_uint64 3 /\ 3 > -5 /\
  trace (Decrement (NewRedisCacheWithPool time.Minute) "k" 3)
        ({["k" := Entry "-5" None]} : keyspace)
    = [redis.EXISTS "k"; redis.GET "k"; redis.DECRBY "k" (redis.ArgUint64 3)] /\
  result (Decrement (NewRedisCacheWithPool time.Minute) "k" 3)
         ({["k" := Entry "-5" None]} : keyspace)
    = (18446744073709551608, None) /\
  fst (result (Decrement (NewRedisCacheWithPool time.Minute) "k" 3)
              ({["k" := Entry "-5" None]} : keyspace))
    <> 0.
Proof.
  repeat split; vm_compute; congruence.
Defined.

Lemma Decrement_saturates_witness :
  holds_integer ({["k" := Entry "5" None]} : keyspace) "k" 5 /\
  result (Decrement (NewRedisCacheWithPool time.Minute) "k" 7)
         ({["k" := Entry "5" None]} : keyspace)
    = (0, None) /\
  result (Decrement (NewRedisCacheWithPool time.Minute) "k" 2)
         ({["k" := Entry "5" None]} : keyspace)
    = (3, None).
Proof.
  assert (Hholds : holds_integer ({["k" := Entry "5" None]} : keyspace) "k" 5)
    by reflexivity.
  assert (Hn : 0 <= 5 <= MaxInt64) by (unfold MaxInt64; lia).
  assert (H7 : is_uint64 7) by (unfold is_uint64, MaxUint64; lia).
  assert (H2 : is_uint64 2) by (unfold is_uint64, MaxUint64; lia).
  split; [exact Hholds | split].
  - exact (proj1 (Decrement_saturates (NewRedisCacheWithPool time.Minute) "k" 7
                    _ 5 Hholds Hn H7)).
  - exact (proj1 (Decrement_saturates (NewRedisCacheWithPool time.Minute) "k" 2
                    _ 5 Hholds Hn H2)).
Defined.

Lemma Service_keys_prefixed_and_isolated_witness :
  goredis.prefix (goredis.NewService "app") <> goredis.prefix (goredis.NewService "web") /\
  goredis.cacheKey (goredis.NewService "app") "u" = "app:u" /\
  goredis.cacheKey (goredis.NewService "web") "u" = "web:u" /\
  result (goredis.perform (goredis.NewService "web") (goredis.CallGet "u"))
         (final (goredis.perform (goredis.NewService "app")
                   (goredis.CallSet "u" (Some 4) time.Minute))
                (∅ : keyspace))
    = result (goredis.perform (goredis.NewService "web") (goredis.CallGet "u"))
             (∅ : keyspace) /\
  result (goredis.Set_ (goredis.NewService "app") "u" (Some 4) time.Minute)
         (∅ : keyspace) = None /\
  payload <$> final (goredis.Set_ (goredis.NewService "app") "u" (Some 4)
                       time.Minute) (∅ : keyspace) !! "app:u"
    = Some "4".
Proof.
  assert (Hprefix : goredis.prefix (goredis.NewService "app")
                    <> goredis.prefix (goredis.NewService "web"))
    by (simpl; discriminate).
  assert (Hok : result (goredis.Set_ (goredis.NewService "app") "u" (Some 4)
                          time.Minute) (∅ : keyspace) = None) by reflexivity.
  destruct (Service_keys_prefixed_and_isolated
              (goredis.NewService "app") (goredis.NewService "web")
              (goredis.CallSet "u" (Some 4) time.Minute) (goredis.CallGet "u")
              (∅ : keyspace) (∅ : keyspace))
    as (_ & Happ & _ & Hisolated & _ & Hset & _).
  destruct (Hisolated Hprefix eq_refl) as (_ & _ & Hsame).
  split; [exact Hprefix | split; [exact Happ | split; [reflexivity |]]].
  split; [exact Hsame | split; [exact Hok |]].
  exact (Hset "u" (Some 4) time.Minute Hok).
Defined.

End ConcreteRuns.

(** * More of the store on the server *)

Section StoreOnServer.

Import GoInt redisstore.

Context {V : Type} `{Serializer V}.

Implicit Types (db : keyspace) (c : RedisStore) (key : string).

Lemma run_Get_present c key db e :
  db !! key = Some e ->
  run (Get (V := V) c key) db = (Deserialize (payload e), db).
Proof.
  intros He. unfold Get. cbn. rewrite He. reflexivity.
Qed.

Lemma run_Get_absent c key db :
  db !! key = None ->
  run (Get (V := V) c key) db = ((None, Some ErrCacheMiss), db).
Proof.
  intros He. unfold Get. cbn. rewrite He. reflexivity.
Qed.

(** X1.  [Get] after a [Set] that reported no error yields what the codec
    decodes from what it encoded, under any expiration. *)
Theorem Set_then_Get c key (value : option V) (expires : time.Duration) db :
  result (Set_ c key value expires) db = None ->
  result (Get c key) (final (Set_ c key value expires) db)
    = Deserialize (fst (Serialize value)).
Proof.
  intros Hok. destruct (invoke_success c key value expires db Hok) as [t Ht].
  unfold Set_, result. rewrite Ht.
  rewrite (run_Get_present c key _ (Entry (Serialize value).1 t))
    by apply lookup_insert_eq.
  reflexivity.
Qed.

(** [Get] never changes the keyspace; on a missing key it returns
    [ErrCacheMiss] and writes nothing through its pointer, on a present
    one it returns the codec's reading of the stored bytes. *)
Lemma Get_reads_only c key db :
  final (Get (V := V) c key) db = db /\
  result (Get (V := V) c key) db
    = match db !! key with
      | Some e => Deserialize (payload e)
      | None => (None, Some ErrCacheMiss)
      end.
Proof.
  unfold final, result. destruct (db !! key) as [e|] eqn:He.
  - rewrite (run_Get_present c key db e He). split; reflexivity.
  - rewrite (run_Get_absent c key db He). split; reflexivity.
Qed.

(** X2.  On a missing key [Add] is [Set] preceded by the existence check. *)
Theorem Add_absent_is_Set c key (value : option V) (expires : time.Duration) db :
  db !! key = None ->
  run (Add c key value expires) db = run (Set_ c key value expires) db /\
  trace (Add c key value expires) db
    = redis.EXISTS key :: trace (Set_ c key value expires) db.
Proof.
  intros He. split; [apply run_Add_absent, He |].
  unfold Add, Set_. rewrite trace_bind, trace_exists_.
  now rewrite (run_exists_absent db key He).
Qed.

(** X3.  On a missing key [Replace] sends the existence check and nothing
    else, returns [ErrNotStored] and leaves the keyspace as it was; the
    value is not even serialized. *)
Theorem Replace_absent_not_stored c key (value : option V)
    (expires : time.Duration) db :
  db !! key = None ->
  run (Replace c key value expires) db = (Some ErrNotStored, db) /\
  trace (Replace c key value expires) db = [redis.EXISTS key].
Proof.
  intros He. unfold Replace. split.
  - now rewrite run_bind, (run_exists_absent db key He).
  - rewrite trace_bind, trace_exists_.
    now rewrite (run_exists_absent db key He).
Qed.

(** X4.  On a present key [Replace] with a value that is not nil is [Set]:
    same result, same keyspace afterwards. *)
Theorem Replace_present_is_Set c key (v : V) (expires : time.Duration) db :
  is_Some (db !! key) ->
  run (Replace c key (Some v) expires) db = run (Set_ c key (Some v) expires) db.
Proof.
  intros [e He]. unfold Replace, Set_.
  rewrite run_bind, (run_exists_present db key e He). cbn [fst snd negb].
  rewrite run_bind. now destruct (run (invoke c key (Some v) expires) db).
Qed.

(** X5.  [Delete] of a missing key returns [ErrCacheMiss] after the existence
    check alone; of a present key it returns no error and removes the
    key, so that [Exists] is then false and every other key is as it
    was. *)
Theorem Delete_removes_key c key db :
  (db !! key = None ->
   run (Delete c key) db = (Some ErrCacheMiss, db) /\
   trace (Delete c key) db = [redis.EXISTS key]) /\
  (is_Some (db !! key) ->
   run (Delete c key) db = (None, delete key db) /\
   result (Exists c key) (final (Delete c key) db) = false).
Proof.
  split.
  - intros He. unfold Delete. split.
    + now rewrite run_bind, (run_exists_absent db key He).
    + rewrite trace_bind, trace_exists_.
      now rewrite (run_exists_absent db key He).
  - intros [e He].
    assert (Hrun : run (Delete c key) db = (None, delete key db)).
    { unfold Delete. rewrite run_bind, (run_exists_present db key e He).
      cbn. rewrite He. reflexivity. }
    split; [exact Hrun |].
    unfold final, result. rewrite Hrun. unfold Exists. cbn.
    now rewrite lookup_delete_eq.
Qed.

(** X6.  [Increment] of a missing key returns 0 and [ErrCacheMiss] after one
    GET: nothing is written, the key is not created. *)
Theorem Increment_absent c key (delta : Z) db :
  db !! key = None ->
  run (Increment c key delta) db = ((0, Some ErrCacheMiss), db) /\
  trace (Increment c key delta) db = [redis.GET key].
Proof.
  intros He. unfold Increment. cbn. rewrite He. split; reflexivity.
Qed.

(** X7.  [Increment] of a key whose bytes Go does not read as an [int64]
    returns 0 and strconv's error after one GET, and writes nothing. *)
Theorem Increment_not_integer c key (delta : Z) db e (err : error) :
  db !! key = Some e ->
  snd (strconv.ParseInt (payload e)) = Some err ->
  run (Increment c key delta) db = ((0, Some err), db) /\
  trace (Increment c key delta) db = [redis.GET key].
Proof.
  intros He Herr. unfold Increment. cbn. rewrite He. cbn.
  destruct (strconv.ParseInt (payload e)) as [n [err'|]]; simpl in Herr;
    [| discriminate].
  injection Herr as ->. split; reflexivity.
Qed.

(** X8.  [Decrement] of a missing key returns 0 and [ErrCacheMiss] after the
    existence check alone: no DECRBY is sent, so the key is not
    created. *)
Theorem Decrement_absent c key (delta : Z) db :
  db !! key = None ->
  run (Decrement c key delta) db = ((0, Some ErrCacheMiss), db) /\
  trace (Decrement c key delta) db = [redis.EXISTS key].
Proof.
  intros He. unfold Decrement. split.
  - now rewrite run_bind, (run_exists_absent db key He).
  - rewrite trace_bind, trace_exists_.
    now rewrite (run_exists_absent db key He).
Qed.

(** X9.  [Decrement] of a non-negative counter keeps the key's time to live
    and touches no other key. *)
Theorem Decrement_keeps_ttl c key (delta : Z) db (n : Z) :
  holds_integer db key n ->
  0 <= n <= MaxInt64 ->
  is_uint64 delta ->
  ttl <$> final (Decrement c key delta) db !! key = ttl <$> db !! key /\
  (forall other, other <> key ->
     final (Decrement c key delta) db !! other = db !! other).
Proof.
  unfold holds_integer. intros Hholds Hn Hdelta.
  destruct (db !! key) as [e|] eqn:He; [| discriminate].
  injection Hholds as Hpayload. unfold final.
  rewrite (Decrement_on_counter c key delta db e n He Hpayload Hn Hdelta).
  cbn [snd]. split.
  - now rewrite lookup_insert_eq.
  - intros other Hne. now rewrite lookup_insert_ne by congruence.
Qed.

(** X13.  [Flush] empties the keyspace: afterwards every key is missing for
    [Exists], [Get], [Increment] and [Decrement] alike. *)
Theorem Flush_clears c db key (delta : Z) :
  run (Flush c) db = (None, ∅) /\
  result (Exists c key) (final (Flush c) db) = false /\
  result (Get (V := V) c key) (final (Flush c) db) = (None, Some ErrCacheMiss) /\
  result (Increment c key delta) (final (Flush c) db) = (0, Some ErrCacheMiss) /\
  result (Decrement c key delta) (final (Flush c) db) = (0, Some ErrCacheMiss).
Proof.
  assert (Hrun : run (Flush c) db = (None, ∅)) by reflexivity.
  assert (Hnone : (∅ : keyspace) !! key = None) by apply lookup_empty.
  unfold final, result. rewrite Hrun. cbn [snd].
  rewrite (run_Get_absent c key ∅ Hnone).
  repeat split.
Qed.

(** On the server [Exists] is true exactly for the keys the keyspace
    holds, and changes nothing. *)
Lemma Exists_iff_present c key db :
  run (Exists c key) db = (bool_decide (is_Some (db !! key)), db).
Proof.
  unfold Exists. cbn. destruct (db !! key); reflexivity.
Qed.

Lemma int32_range (x : Z) : - 2 ^ 31 <= int32 x < 2 ^ 31.
Proof.
  unfold int32, wrap_signed.
  pose proof (Z.mod_pos_bound (x + 2 ^ (32 - 1)) (2 ^ 32)). lia.
Qed.

(** The server reads the seconds [SetExpire] and [invoke] send as the
    [int32] they are. *)
Lemma string2ll_int32 (x : Z) :
  string2ll (redis.writeArg (redis.ArgInt32 (int32 x))) = Some (int32 x).
Proof.
  cbn [redis.writeArg]. apply string2ll_FormatInt.
  pose proof (int32_range x). unfold is_int64, MinInt64, MaxInt64. lia.
Qed.

Lemma whole_seconds (expires : time.Duration) :
  time.Second <= expires < 2 ^ 31 * time.Second ->
  int32 (expires ÷ time.Second) = expires / time.Second /\
  0 < expires / time.Second.
Proof.
  unfold time.Second. intros Hexp.
  rewrite Z.quot_div_nonneg by lia.
  pose proof (Z.div_le_lower_bound expires 1000000000 1).
  pose proof (Z.div_lt_upper_bound expires 1000000000 (2 ^ 31)).
  rewrite int32_small by lia. lia.
Qed.

Lemma no_whole_second (expires : time.Duration) :
  - 2 ^ 31 * time.Second < expires < time.Second ->
  int32 (expires ÷ time.Second) <= 0.
Proof.
  unfold time.Second. intros Hexp.
  destruct (Z.le_gt_cases 0 expires) as [Hpos | Hneg].
  - rewrite Z.quot_small by lia. now rewrite int32_small by lia.
  - replace expires with (- - expires) by lia.
    rewrite Z.quot_opp_l by lia. rewrite Z.quot_div_nonneg by lia.
    pose proof (Z.div_pos (- expires) 1000000000).
    pose proof (Z.div_lt_upper_bound (- expires) 1000000000 (2 ^ 31)).
    rewrite int32_small by lia. lia.
Qed.

(** X14.  [SetExpire] with a duration of at least a second (and under 2^31
    seconds) on a present key returns [true] and gives the key that many
    whole seconds to live, its value kept. *)
Theorem SetExpire_sets_ttl c key (expires : time.Duration) db e :
  db !! key = Some e ->
  time.Second <= expires < 2 ^ 31 * time.Second ->
  run (SetExpire c key expires) db
    = (true, <[key := Entry (payload e) (Some (expires / time.Second))]> db).
Proof.
  intros He Hexp. destruct (whole_seconds expires Hexp) as [Hsecs Hpos].
  unfold SetExpire. cbn [bind conn_call run redis.conn_Do server_conn execute].
  rewrite string2ll_int32, He, Hsecs.
  destruct (Z.leb_spec (expires / time.Second) 0); [lia | reflexivity].
Qed.

(** X15.  [SetExpire] on a present key sends one EXPIRE whose seconds
    are the duration's whole seconds converted to [int32].  Whenever
    that number is not positive the call returns [true] and the key is
    removed: the server takes such seconds as "expired already".  That
    is so for every duration above -2^31 seconds and under one second -
    zero, [DEFAULT] and [FOREVER] among them - where the conversion
    changes nothing.  When the converted number is positive, as it is
    again for durations so negative that the conversion wraps, the key
    is kept with that time to live. *)
Theorem SetExpire_under_a_second_deletes c key (expires : time.Duration) db :
  is_Some (db !! key) ->
  trace (SetExpire c key expires) db
    = [redis.EXPIRE key (redis.ArgInt32 (int32 (expires ÷ time.Second)))] /\
  (int32 (expires ÷ time.Second) <= 0 ->
   run (SetExpire c key expires) db = (true, delete key db)) /\
  (- 2 ^ 31 * time.Second < expires < time.Second ->
   int32 (expires ÷ time.Second) = expires ÷ time.Second /\
   expires ÷ time.Second <= 0 /\
   run (SetExpire c key expires) db = (true, delete key db)) /\
  (forall e, db !! key = Some e ->
   0 < int32 (expires ÷ time.Second) ->
   run (SetExpire c key expires) db
     = (true,
        <[key := Entry (payload e) (Some (int32 (expires ÷ time.Second)))]> db)).
Proof.
  intros [e He].
  assert (Hrun : int32 (expires ÷ time.Second) <= 0 ->
                 run (SetExpire c key expires) db = (true, delete key db)).
  { intros Hsecs. unfold SetExpire.
    cbn [bind conn_call run redis.conn_Do server_conn execute].
    rewrite string2ll_int32, He.
    destruct (Z.leb_spec (int32 (expires ÷ time.Second)) 0); [reflexivity | lia]. }
  split; [| split; [exact Hrun | split]].
  - unfold SetExpire.
    cbn [bind conn_call trace redis.conn_Do server_conn execute].
    rewrite string2ll_int32, He.
    destruct (int32 (expires ÷ time.Second) <=? 0); reflexivity.
  - intros Hexp. pose proof (no_whole_second expires Hexp) as Hsecs.
    assert (Hsame : int32 (expires ÷ time.Second) = expires ÷ time.Second).
    { apply int32_small. unfold time.Second in *.
      destruct (Z.le_gt_cases 0 expires) as [Hpos | Hneg].
      - rewrite Z.quot_small by lia. lia.
      - replace expires with (- - expires) by lia.
        rewrite Z.quot_opp_l by lia. rewrite Z.quot_div_nonneg by lia.
        pose proof (Z.div_pos (- expires) 1000000000).
        pose proof (Z.div_lt_upper_bound (- expires) 1000000000 (2 ^ 31)).
        lia. }
    split; [exact Hsame | split; [lia | exact (Hrun Hsecs)]].
  - intros e' He' Hsecs. unfold SetExpire.
    cbn [bind conn_call run redis.conn_Do server_conn execute].
    rewrite string2ll_int32, He'.
    destruct (Z.leb_spec (int32 (expires ÷ time.Second)) 0); [lia | reflexivity].
Qed.

(** X16.  [SetExpire] on a missing key returns [false] and changes nothing,
    whatever the duration; so on the server its result is [true]
    exactly for the keys present. *)
Theorem SetExpire_true_iff_present c key (expires : time.Duration) db :
  result (SetExpire c key expires) db = bool_decide (is_Some (db !! key)) /\
  (db !! key = None -> final (SetExpire c key expires) db = db).
Proof.
  unfold result, final, SetExpire.
  cbn [bind conn_call run redis.conn_Do server_conn execute].
  rewrite string2ll_int32.
  destruct (db !! key) as [e|].
  - split; [| discriminate].
    destruct (int32 (expires ÷ time.Second) <=? 0); reflexivity.
  - split; reflexivity.
Qed.

(** X17.  [Set] of a value the codec accepts: with FOREVER the key holds the
    bytes and does not expire; with a duration of at least a second
    (and under 2^31 seconds) it holds them with that many whole seconds
    to live.  What the key held before is overwritten either way. *)
Theorem Set_stores c key (value : option V) (b : string)
    (expires : time.Duration) db :
  Serialize value = (b, None) ->
  run (Set_ c key value FOREVER) db = (None, <[key := Entry b None]> db) /\
  (time.Second <= expires < 2 ^ 31 * time.Second ->
   run (Set_ c key value expires) db
     = (None, <[key := Entry b (Some (expires / time.Second))]> db)).
Proof.
  intros Hb. split.
  - unfold Set_, invoke. rewrite Hb. reflexivity.
  - intros Hexp. destruct (whole_seconds expires Hexp) as [Hsecs Hpos].
    unfold Set_, invoke, DEFAULT, FOREVER. rewrite Hb.
    unfold time.Second in Hexp.
    destruct (Z.eqb_spec expires 0); [lia |].
    destruct (Z.eqb_spec expires (-1)); [lia |].
    destruct (Z.ltb_spec 0 expires); [| lia].
    cbn [bind conn_call run redis.conn_Do server_conn execute].
    rewrite string2ll_int32, Hsecs.
    destruct (Z.leb_spec (expires / time.Second) 0); [lia | reflexivity].
Qed.

(** X18.  [Set] with a positive duration under a second sends SETEX with 0
    seconds: the server answers "invalid expire time", [Set] returns
    that error and nothing is stored. *)
Theorem Set_under_a_second_rejected c key (value : option V) (b : string)
    (expires : time.Duration) db :
  Serialize value = (b, None) ->
  0 < expires < time.Second ->
  run (Set_ c key value expires) db
    = (Some (RedisError "ERR invalid expire time in 'setex' command"), db).
Proof.
  unfold time.Second. intros Hb Hexp.
  unfold Set_, invoke, DEFAULT, FOREVER. rewrite Hb.
  destruct (Z.eqb_spec expires 0); [lia |].
  destruct (Z.eqb_spec expires (-1)); [lia |].
  destruct (Z.ltb_spec 0 expires); [| lia].
  replace (expires ÷ time.Second) with 0
    by (symmetry; apply Z.quot_small; unfold time.Second; lia).
  reflexivity.
Qed.

Lemma int64_in_range (x : Z) : is_int64 x -> int64 x = x.
Proof.
  unfold is_int64, int64, wrap_signed, MinInt64, MaxInt64. intros Hx.
  rewrite Z.mod_small; lia.
Qed.

(** DECRBY on a key holding the integer [old], whenever the difference
    is an [int64]. *)
Lemma execute_DECRBY_in_range db key (amount : redis.arg) (e : entry)
    (old decr : Z) :
  db !! key = Some e ->
  payload e = strconv.FormatInt old ->
  is_int64 old ->
  string2ll (redis.writeArg amount) = Some decr ->
  MinInt64 < decr ->
  is_int64 (old - decr) ->
  execute (redis.DECRBY key amount) db
    = (integer (old - decr),
       <[key := Entry (strconv.FormatInt (old - decr)) (ttl e)]> db).
Proof.
  intros He Hpayload Hold Hdecr Hmin Hnew. unfold execute.
  rewrite Hdecr, He, Hpayload, (string2ll_FormatInt old Hold).
  unfold is_int64, MinInt64, MaxInt64 in *.
  destruct (Z.eqb_spec decr (- 2 ^ 63)); [lia |].
  assert (Hno : would_overflow old (- decr) = false).
  { unfold would_overflow, MinInt64, MaxInt64.
    destruct (Z.ltb_spec (- decr) 0), (Z.ltb_spec old 0),
      (Z.ltb_spec (- decr) (- 2 ^ 63 - old)), (Z.ltb_spec 0 (- decr)),
      (Z.ltb_spec 0 old), (Z.ltb_spec (2 ^ 63 - 1 - old) (- decr));
      simpl; try reflexivity; lia. }
  rewrite Hno. reflexivity.
Qed.

(** X12.  [Increment] by [delta] and then [Decrement] by [delta] gives the
    counter back, as long as the sum does not pass the largest
    [int64]. *)
Theorem Increment_then_Decrement c key (delta : Z) db e (n : Z) :
  db !! key = Some e ->
  strconv.ParseInt (payload e) = (n, None) ->
  0 <= n -> 0 <= delta -> n + delta <= MaxInt64 ->
  result (Increment c key delta) db = (n + delta, None) /\
  result (Decrement c key delta) (final (Increment c key delta) db) = (n, None) /\
  holds_integer
    (final (Decrement c key delta) (final (Increment c key delta) db)) key n.
Proof.
  intros He Hn Hn0 Hd0 Hsum.
  destruct (Increment_on_integer c key delta db e n He Hn) as [Hrun _].
  assert (Hd : int64 delta = delta)
    by (apply int64_in_range; unfold is_int64, MinInt64, MaxInt64 in *; lia).
  assert (Hs : int64 (n + delta) = n + delta)
    by (apply int64_in_range; unfold is_int64, MinInt64, MaxInt64 in *; lia).
  rewrite Hd, Hs in Hrun.
  unfold result, final. rewrite Hrun. cbn [fst snd].
  rewrite uint64_small by (unfold MaxUint64, MaxInt64 in *; lia).
  rewrite (Decrement_on_counter c key delta _
             (Entry (strconv.FormatInt (n + delta)) None) (n + delta))
    by (try apply lookup_insert_eq; try reflexivity;
        unfold is_uint64, MaxUint64, MaxInt64 in *; lia).
  replace (Z.max 0 (n + delta - delta)) with n by lia.
  cbn [fst snd]. unfold holds_integer. rewrite lookup_insert_eq.
  repeat split.
Qed.

(** X10.  [Decrement] of a negative stored integer: the comparison reads it
    as a [uint64] of at least 2^63, no [delta] up to the largest [int64]
    exceeds that, and the counter goes further down; the new value comes
    back as a [uint64]. *)
Theorem Decrement_negative_goes_down c key (delta : Z) db (n : Z) :
  holds_integer db key n ->
  MinInt64 <= n < 0 ->
  0 <= delta <= MaxInt64 ->
  MinInt64 <= n - delta ->
  result (Decrement c key delta) db = (n - delta + 2 ^ 64, None) /\
  holds_integer (final (Decrement c key delta) db) key (n - delta).
Proof.
  unfold holds_integer. intros Hholds Hn Hdelta Hlow.
  destruct (db !! key) as [e|] eqn:He; [| discriminate].
  injection Hholds as Hpayload.
  assert (Hint : is_int64 n) by (unfold is_int64, MinInt64, MaxInt64 in *; lia).
  assert (Hrun : run (Decrement c key delta) db
                 = ((n - delta + 2 ^ 64, None),
                    <[key := Entry (strconv.FormatInt (n - delta)) (ttl e)]> db)).
  { unfold Decrement.
    rewrite run_bind, (run_exists_present db key e He). cbn [fst snd negb].
    rewrite run_bind, run_conn_call. cbn [redis.conn_Do server_conn execute].
    rewrite He. cbn [fst snd redis.Int64].
    rewrite Hpayload, (ParseInt_FormatInt n Hint).
    replace (uint64 n <? delta) with false.
    2:{ symmetry. apply Z.ltb_ge. unfold uint64, wrap_unsigned.
        replace n with (n + 2 ^ 64 + (-1) * 2 ^ 64) by lia.
        rewrite Z.mod_add by lia.
        rewrite Z.mod_small; unfold MinInt64, MaxInt64 in *; lia. }
    rewrite andb_false_r.
    rewrite run_bind, run_conn_call. cbn [redis.conn_Do server_conn].
    rewrite (execute_DECRBY_in_range db key (redis.ArgUint64 delta) e n delta
               He Hpayload Hint)
      by (try apply string2ll_FormatUint;
          unfold is_int64, MinInt64, MaxInt64 in *; lia).
    cbn [fst snd integer redis.Int64 run].
    f_equal. f_equal. unfold uint64, wrap_unsigned.
    replace (n - delta) with (n - delta + 2 ^ 64 + (-1) * 2 ^ 64) by lia.
    rewrite Z.mod_add by lia.
    rewrite Z.mod_small; unfold MinInt64, MaxInt64 in *; lia. }
  unfold result, final. rewrite Hrun. cbn [fst snd].
  rewrite lookup_insert_eq. split; reflexivity.
Qed.

(** What the server reads from the decimal text of a [uint64] is never
    negative. *)
Lemma string2ll_FormatUint_nonneg (delta decr : Z) :
  string2ll (strconv.FormatUint delta) = Some decr -> 0 <= decr.
Proof.
  unfold strconv.FormatUint.
  destruct (Z.to_N delta) as [| p]; [vm_compute; intros [= <-]; discriminate |].
  cbn [N.to_uint]. rewrite string_of_uint_pos.
  destruct (digits_nonempty (Pos.to_uint p)) as (a & r & Hs & Hsign);
    [apply DecimalPos.Unsigned.to_uint_nonnil |].
  unfold string2ll, strconv.ParseInt.
  rewrite Hs, Hsign, <- Hs, NilEmpty.usu, of_uint_to_uint.
  destruct (Z.pos p <=? MaxInt64); [| discriminate].
  destruct (String.eqb _ _); [| discriminate].
  intros [= <-]. lia.
Qed.

(** X11.  [Decrement] of a key whose bytes are no integer: the GET's parse
    error is passed over, DECRBY is sent all the same, the server
    refuses it, and [Decrement] returns 0 with the server's error; the
    keyspace is as it was. *)
Theorem Decrement_not_integer c key (delta : Z) db e (err : error) :
  db !! key = Some e ->
  snd (strconv.ParseInt (payload e)) = Some err ->
  run (Decrement c key delta) db
    = ((0, Some (RedisError not_an_integer)), db) /\
  trace (Decrement c key delta) db
    = [redis.EXISTS key; redis.GET key; redis.DECRBY key (redis.ArgUint64 delta)].
Proof.
  intros He Herr.
  assert (Hold : string2ll (payload e) = None).
  { unfold string2ll. destruct (strconv.ParseInt (payload e)) as [m [x|]];
      [reflexivity | discriminate]. }
  assert (Hdo : execute (redis.DECRBY key (redis.ArgUint64 delta)) db
                = (fail not_an_integer, db)).
  { unfold execute. rewrite He, Hold.
    destruct (string2ll (redis.writeArg (redis.ArgUint64 delta)))
      as [decr|] eqn:Hdecr; [| reflexivity].
    apply string2ll_FormatUint_nonneg in Hdecr.
    destruct (Z.eqb_spec decr MinInt64); [unfold MinInt64 in *; lia | reflexivity]. }
  unfold Decrement. split.
  - rewrite run_bind, (run_exists_present db key e He). cbn [fst snd negb].
    rewrite run_bind, run_conn_call. cbn [redis.conn_Do server_conn execute].
    rewrite He. cbn [fst snd redis.Int64].
    destruct (strconv.ParseInt (payload e)) as [m [x|]]; [| discriminate].
    cbn [bool_decide andb]. replace (bool_decide (Some x = None)) with false
      by reflexivity.
    cbn [andb]. rewrite run_bind, run_conn_call. cbn [redis.conn_Do server_conn].
    rewrite Hdo. reflexivity.
  - rewrite trace_bind, trace_exists_, (run_exists_present db key e He).
    cbn [fst snd negb app]. f_equal.
    cbn [bind conn_call trace redis.conn_Do server_conn execute].
    rewrite He. cbn [fst snd redis.Int64].
    destruct (strconv.ParseInt (payload e)) as [m [x|]]; [| discriminate].
    replace (bool_decide (Some x = None)) with false by reflexivity.
    cbn [andb bind trace redis.conn_Do server_conn]. rewrite Hdo. reflexivity.
Qed.

End StoreOnServer.

(** * More of the store on any connection *)

Section StoreOnAnyConnection.

Import GoInt redisstore.

Context {C : Type} `{redis.Conn C} {V : Type} `{Serializer V}.

Lemma run_exists_error (key : string) (s : C) (raw : option redis.value)
    (e : error) :
  fst (redis.conn_Do (redis.EXISTS key) s) = (raw, Some e) ->
  run (exists_ key) s = (false, snd (redis.conn_Do (redis.EXISTS key) s)) /\
  trace (exists_ key) s = [redis.EXISTS key].
Proof.
  intros Hreply. unfold exists_. cbn [bind conn_call run trace].
  destruct (redis.conn_Do (redis.EXISTS key) s) as [r s']. simpl in Hreply.
  subst r. rewrite Bool_error. split; reflexivity.
Qed.

(** X20.  When the existence check itself fails, its error is dropped and the
    key counts as missing: [Delete] and [Decrement] return
    [ErrCacheMiss], [Replace] returns [ErrNotStored], and none of them
    sends another command. *)
Theorem Failed_check_reads_as_missing (c : RedisStore) (key : string)
    (value : option V) (expires : time.Duration) (delta : Z) (s : C)
    (raw : option redis.value) (e : error) :
  fst (redis.conn_Do (redis.EXISTS key) s) = (raw, Some e) ->
  (result (Delete c key) s = Some ErrCacheMiss /\
   trace (Delete c key) s = [redis.EXISTS key]) /\
  (result (Decrement c key delta) s = (0, Some ErrCacheMiss) /\
   trace (Decrement c key delta) s = [redis.EXISTS key]) /\
  (result (Replace c key value expires) s = Some ErrNotStored /\
   trace (Replace c key value expires) s = [redis.EXISTS key]).
Proof.
  intros Hreply. destruct (run_exists_error key s raw e Hreply) as [Hrun Htrace].
  unfold result, Delete, Decrement, Replace.
  rewrite !run_bind, !trace_bind, Hrun, Htrace.
  repeat split.
Qed.

(** X21.  [Add], on the contrary, takes a failed existence check for leave to
    write: it goes on exactly as [Set] would from there. *)
Theorem Add_writes_after_failed_check (c : RedisStore) (key : string)
    (value : option V) (expires : time.Duration) (s : C)
    (raw : option redis.value) (e : error) :
  fst (redis.conn_Do (redis.EXISTS key) s) = (raw, Some e) ->
  run (Add c key value expires) s
    = run (Set_ c key value expires) (snd (redis.conn_Do (redis.EXISTS key) s)).
Proof.
  intros Hreply. destruct (run_exists_error key s raw e Hreply) as [Hrun _].
  unfold Add, Set_. now rewrite run_bind, Hrun.
Qed.

(** X19.  When the codec refuses the value, [Set] sends nothing and returns
    the codec's error; [Add] and [Replace] send their existence check
    and no write. *)
Theorem Codec_error_writes_nothing (c : RedisStore) (key : string)
    (value : option V) (b : string) (e : error) (expires : time.Duration)
    (s : C) :
  Serialize value = (b, Some e) ->
  Set_ c key value expires = Ret (Some e) /\
  trace (Add c key value expires) s = [redis.EXISTS key] /\
  trace (Replace c key value expires) s = [redis.EXISTS key].
Proof.
  intros Hb.
  assert (Hinvoke : invoke c key value expires = Ret (Some e)).
  { unfold invoke. now rewrite Hb. }
  split; [exact Hinvoke |].
  unfold Add, Replace. rewrite !trace_bind, Hinvoke.
  unfold exists_. cbn [bind conn_call run trace].
  destruct (redis.conn_Do (redis.EXISTS key) s) as [r s'].
  destruct (redis.Bool r) as [present err]. cbn [fst snd].
  destruct present, value; split; reflexivity.
Qed.

(** X22.  When the GET of [Increment] comes back with an error, nothing is
    written; the result is 0 with [ErrCacheMiss] if the reply is nil -
    the error is then lost - and with the error itself otherwise. *)
Theorem Increment_read_failure (c : RedisStore) (key : string) (delta : Z)
    (s : C) (raw : option redis.value) (e : error) :
  fst (redis.conn_Do (redis.GET key) s) = (raw, Some e) ->
  result (Increment c key delta) s
    = (0, Some (match raw with None => ErrCacheMiss | Some _ => e end)) /\
  trace (Increment c key delta) s = [redis.GET key].
Proof.
  intros Hreply. unfold result, Increment. cbn [bind conn_call run trace].
  destruct (redis.conn_Do (redis.GET key) s) as [r s']. simpl in Hreply.
  subst r. destruct raw; split; reflexivity.
Qed.

End StoreOnAnyConnection.

(** * The store on a closed pool *)

Section ClosedPool.

Import GoInt redisstore.

Context {V : Type} `{Serializer V}.

(** X23.  What each method reports on the connection of a closed pool, where
    every command fails with the pool's error: the writes ([Set], [Add],
    [Flush]) return that error; [Get], [Delete], [Increment] and
    [Decrement] report a cache miss and [Replace] "not stored" instead;
    [Exists] and [SetExpire] say [false]. *)
Theorem Closed_pool_results (c : RedisStore) (key : string) (value : option V)
    (b : string) (expires : time.Duration) (delta : Z) (s : errorConn.t) :
  Serialize value = (b, None) ->
  result (Set_ c key value expires) s = Some (err s) /\
  result (Add c key value expires) s = Some (err s) /\
  result (Flush c) s = Some (err s) /\
  result (Get (V := V) c key) s = (None, Some ErrCacheMiss) /\
  result (Delete c key) s = Some ErrCacheMiss /\
  result (Increment c key delta) s = (0, Some ErrCacheMiss) /\
  result (Decrement c key delta) s = (0, Some ErrCacheMiss) /\
  result (Replace c key value expires) s = Some ErrNotStored /\
  result (Exists c key) s = false /\
  result (SetExpire c key expires) s = false.
Proof.
  intros Hb.
  assert (Hinvoke : forall s' : errorConn.t,
             run (invoke c key value expires) s' = (Some (err s'), s')).
  { intros s'. unfold invoke. rewrite Hb.
    destruct (0 <? _); reflexivity. }
  unfold result, Set_, Add, Replace. rewrite !run_bind, !Hinvoke.
  repeat split.
Qed.

End ClosedPool.

(** * Setting up connections *)

Section SettingUp.

Import pool.

Lemma CreatePool_Dial (host : string) (port db : Z) (password : string) :
  Dial (CreatePool host port db password)
    = Dial (NewRedisCache host port password db).
Proof. reflexivity. Qed.

Lemma password_given (password : string) :
  (0 <? String.length password)%nat = negb (bool_decide (password = "")).
Proof. destruct password; reflexivity. Qed.

(** X24.  [Dial], of either pool and on any network: when it returns a
    connection, it has dialled, sent AUTH first if and only if the
    password is not empty, sent SELECT last, and closed nothing; when it
    returns an error, either the dialling failed and nothing else was
    done, or the last thing done was to close the connection. *)
Theorem Dial_closes_what_it_gives_up {N : Type} `{Network N}
    (host : string) (port database : Z) (password : string)
    (d : setup dialled) (n : N) :
  d = Dial (NewRedisCache host port password database) \/
  d = Dial (CreatePool host port database password) ->
  match fst (run_setup d n) with
  | Connected =>
      calls d n
      = (NetDial "tcp" (host +:+ ":" +:+ strconv.FormatInt port)
         :: (if bool_decide (password = "") then []
             else [ConnDo (AUTH password)])
         ++ [ConnDo (SELECT database)])%list
  | Failed e =>
      calls d n = [NetDial "tcp" (host +:+ ":" +:+ strconv.FormatInt port)] \/
      last (calls d n) = Some ConnClose
  end.
Proof.
  intros Hd. assert (Hnew : d = Dial (NewRedisCache host port password database)).
  { destruct Hd as [-> | ->]; [reflexivity | apply CreatePool_Dial]. }
  subst d. clear Hd.
  cbn [Dial NewRedisCache run_setup calls]. rewrite password_given.
  unfold Itoa.
  destruct (answer (NetDial "tcp" (host +:+ ":" +:+ strconv.FormatInt port)) n)
    as [[e|] n1]; cbn [fst run_setup calls]; [left; reflexivity |].
  destruct (bool_decide (password = "")); cbn [negb run_setup calls].
  - destruct (answer (ConnDo (SELECT database)) n1) as [[e|] n2];
      cbn [fst run_setup calls]; [| reflexivity].
    destruct (answer ConnClose n2) as [x n3]; cbn [fst run_setup calls].
    right; reflexivity.
  - destruct (answer (ConnDo (AUTH password)) n1) as [[e|] n2];
      cbn [fst run_setup calls].
    + destruct (answer ConnClose n2) as [x n3]; cbn [fst run_setup calls].
      right; reflexivity.
    + destruct (answer (ConnDo (SELECT database)) n2) as [[e|] n3];
        cbn [fst run_setup calls]; [| reflexivity].
      destruct (answer ConnClose n3) as [x n4]; cbn [fst run_setup calls].
      right; reflexivity.
Qed.

Import RedisEndpoint.

Lemma run_Dial_on_endpoint (host : string) (port database : Z)
    (password : string) (n : net) :
  run_setup (Dial (NewRedisCache host port password database)) n
  = if bool_decide (host +:+ ":" +:+ strconv.FormatInt port = address (cfg n))
    then
      if bool_decide (password = requirepass (cfg n))
      then
        if (0 <=? database) && (database <? databases (cfg n))
        then (Connected, {| cfg := cfg n; conn := Open true database |})
        else (Failed (RedisError "ERR DB index is out of range"),
              {| cfg := cfg n; conn := Closed |})
      else
        if bool_decide (password = "")
        then (Failed noauth, {| cfg := cfg n; conn := Closed |})
        else if bool_decide (requirepass (cfg n) = "")
        then (Failed (RedisError "ERR Client sent AUTH, but no password is set"),
              {| cfg := cfg n; conn := Closed |})
        else (Failed (RedisError "ERR invalid password"),
              {| cfg := cfg n; conn := Closed |})
    else (Failed (TransportError "dial tcp: connect: connection refused"), n).
Proof.
  cbn [Dial NewRedisCache run_setup answer endpoint_network serve].
  rewrite password_given. unfold Itoa.
  replace (bool_decide ("tcp" = "tcp")) with true by reflexivity.
  cbn [andb].
  destruct (bool_decide (_ = address (cfg n))); [| reflexivity].
  cbn [run_setup answer endpoint_network serve cfg conn].
  destruct n as [[addr pass dbs] l]. cbn [cfg conn requirepass databases].
  repeat case_bool_decide; subst;
    cbn [negb run_setup answer endpoint_network serve cfg conn requirepass
         databases];
    repeat case_bool_decide; try congruence;
    cbn [negb run_setup answer endpoint_network serve cfg conn requirepass
         databases];
    try (destruct ((0 <=? database) && (database <? dbs));
         cbn [negb run_setup answer endpoint_network serve cfg conn requirepass
              databases]);
    reflexivity.
Qed.

(** X25.  On a Redis endpoint, [Dial] of either pool returns a connection
    exactly when host and port make the server's address, the password
    is the one the server requires (the empty one for a server that
    requires none) and the database index exists.  The connection it
    returns is authenticated, has that database selected and passes
    [TestOnBorrow]; when it returns an error no connection is left
    open. *)
Theorem Dial_connects_iff (host : string) (port database : Z)
    (password : string) (P : Pool) (n : net) :
  P = NewRedisCache host port password database \/
  P = CreatePool host port database password ->
  conn n = NotConnected ->
  (fst (run_setup (Dial P) n) = Connected <->
   host +:+ ":" +:+ strconv.FormatInt port = address (cfg n) /\
   password = requirepass (cfg n) /\
   0 <= database < databases (cfg n)) /\
  (fst (run_setup (Dial P) n) = Connected ->
   conn (snd (run_setup (Dial P) n)) = Open true database /\
   fst (run_setup (TestOnBorrow P) (snd (run_setup (Dial P) n))) = None) /\
  (forall e, fst (run_setup (Dial P) n) = Failed e ->
   conn (snd (run_setup (Dial P) n)) = NotConnected \/
   conn (snd (run_setup (Dial P) n)) = Closed).
Proof.
  intros HP Hn.
  assert (Hdial : Dial P = Dial (NewRedisCache host port password database)).
  { destruct HP as [-> | ->]; reflexivity. }
  assert (Hping : forall m, conn m = Open true database ->
                            fst (run_setup (TestOnBorrow P) m) = None).
  { intros m Hm. destruct HP as [-> | ->];
      cbn [TestOnBorrow NewRedisCache CreatePool run_setup answer
           endpoint_network serve]; rewrite Hm; reflexivity. }
  rewrite Hdial, run_Dial_on_endpoint.
  case_bool_decide as Haddr; [| cbn [fst snd]; rewrite Hn;
    split; [split; [discriminate | tauto] | split; [discriminate | auto]]].
  case_bool_decide as Hpass.
  - destruct (Z.leb_spec 0 database), (Z.ltb_spec database (databases (cfg n)));
      cbn [andb fst snd conn].
    + split; [split; [intros _; repeat split; auto | reflexivity] |].
      split; [intros _; split; [reflexivity | apply Hping; reflexivity] |].
      discriminate.
    + split; [split; [discriminate | lia] | split; [discriminate | auto]].
    + split; [split; [discriminate | lia] | split; [discriminate | auto]].
    + split; [split; [discriminate | lia] | split; [discriminate | auto]].
  - repeat case_bool_decide; cbn [fst snd conn];
      (split; [split; [discriminate | tauto] | split; [discriminate | auto]]).
Qed.

End SettingUp.

(** * More of the Service *)

Section ServiceOnServer.

Import GoInt.

Context {V : Type} `{Serializer V}.

Lemma append_assoc (s1 s2 s3 : string) :
  (s1 +:+ s2) +:+ s3 = s1 +:+ (s2 +:+ s3).
Proof.
  induction s1 as [| a s1 IH]; [reflexivity |].
  change (String a ((s1 +:+ s2) +:+ s3) = String a (s1 +:+ (s2 +:+ s3))).
  now rewrite IH.
Qed.

Lemma cacheKey_key_inj (s : goredis.Service) (k1 k2 : string) :
  goredis.cacheKey s k1 = goredis.cacheKey s k2 -> k1 = k2.
Proof.
  unfold goredis.cacheKey. intros Heq.
  apply (String.app_inj (goredis.prefix s)) in Heq.
  now apply (String.app_inj ":") in Heq.
Qed.

(** X26.  The sequence of the repository's own test: after a [Set] through a
    Service that reported no error, [Get] through it yields what the
    codec decodes from the encoded value, [Delete] succeeds, and the key
    is gone. *)
Theorem Service_Set_Get_Delete (s : goredis.Service) (key : string)
    (value : option V) (expire : time.Duration) (db : keyspace) :
  result (goredis.Set_ s key value expire) db = None ->
  result (goredis.Get s key) (final (goredis.Set_ s key value expire) db)
    = Deserialize (fst (Serialize value)) /\
  result (goredis.Delete s key) (final (goredis.Set_ s key value expire) db)
    = None /\
  result (goredis.Exists s key)
    (final (goredis.Delete s key) (final (goredis.Set_ s key value expire) db))
    = false.
Proof.
  intros Hok. unfold goredis.Set_, redisstore.Set_ in *.
  destruct (invoke_success _ _ value expire db Hok) as [t Ht]. rewrite Ht.
  set (k := goredis.cacheKey s key).
  set (e := Entry (Serialize value).1 t).
  assert (He : <[k := e]> db !! k = Some e) by apply lookup_insert_eq.
  unfold result, final, goredis.Get, goredis.Delete, goredis.Exists.
  fold k. rewrite (run_Get_present _ k _ e He).
  assert (Hdel : run (redisstore.Delete (goredis.store s) k) (<[k := e]> db)
                 = (None, delete k (<[k := e]> db))).
  { unfold redisstore.Delete.
    rewrite run_bind, (run_exists_present _ k e He). cbn. rewrite He.
    reflexivity. }
  rewrite Hdel. cbn [fst snd]. repeat split.
  unfold redisstore.Exists. cbn. now rewrite lookup_delete_eq.
Qed.

(** X27.  [Flush] through a Service takes no account of the prefix: it sends
    FLUSHDB, and every key of every Service is gone. *)
Theorem Service_Flush_spares_no_prefix (a b : goredis.Service) (key : string)
    (db : keyspace) :
  trace (goredis.Flush a) db = [redis.FLUSHDB] /\
  final (goredis.Flush a) db = ∅ /\
  result (goredis.Get (V := V) b key) (final (goredis.Flush a) db)
    = (None, Some ErrCacheMiss) /\
  result (goredis.Exists b key) (final (goredis.Flush a) db) = false.
Proof.
  repeat split.
Qed.

(** X28.  A Service made by [NewService] has DEFAULT as its store's default
    expiration, which [invoke] does not resolve a second time: through
    such a Service DEFAULT means what FOREVER means, a plain SET. *)
Theorem NewService_DEFAULT_is_FOREVER (prefix key : string) (value : option V)
    (b : string) :
  Serialize value = (b, None) ->
  goredis.Set_ (goredis.NewService prefix) key value redisstore.DEFAULT
    = Do (redis.SET (prefix +:+ ":" +:+ key) (redis.ArgBytes b))
         (fun r => Ret (snd r)) /\
  goredis.Set_ (goredis.NewService prefix) key value redisstore.DEFAULT
    = goredis.Set_ (goredis.NewService prefix) key value redisstore.FOREVER.
Proof.
  intros Hb.
  unfold goredis.Set_, redisstore.Set_, redisstore.invoke. rewrite Hb.
  split; reflexivity.
Qed.

(** X29.  Within one Service, a method called with one key leaves the entry
    of every other caller key as it was. *)
Theorem Service_keys_independent (s : goredis.Service) (m : goredis.call V)
    (other : string) (db : keyspace) :
  other <> goredis.call_key m ->
  final (goredis.perform s m) db !! goredis.cacheKey s other
    = db !! goredis.cacheKey s other.
Proof.
  intros Hne.
  apply (only_key_other_key (goredis.cacheKey s (goredis.call_key m)));
    [apply perform_only_key |].
  intros Heq. apply Hne. eapply cacheKey_key_inj, Heq.
Qed.

(** X30.  Prefixes do not partition the keys: the Service of prefix [p] with
    caller key [q:k] and the Service of prefix [p:q] with caller key [k]
    address the same store key, so what the one sets the other gets. *)
Theorem Service_prefixes_overlap (st st' : redisstore.RedisStore)
    (p q k : string) (value : option V) (expire : time.Duration)
    (db : keyspace) :
  result (goredis.Set_ {| goredis.prefix := p; goredis.store := st |}
            (q +:+ ":" +:+ k) value expire) db = None ->
  goredis.cacheKey {| goredis.prefix := p; goredis.store := st |} (q +:+ ":" +:+ k)
    = goredis.cacheKey {| goredis.prefix := p +:+ ":" +:+ q; goredis.store := st' |} k /\
  p <> p +:+ ":" +:+ q /\
  result (goredis.Get {| goredis.prefix := p +:+ ":" +:+ q; goredis.store := st' |} k)
         (final (goredis.Set_ {| goredis.prefix := p; goredis.store := st |}
                   (q +:+ ":" +:+ k) value expire) db)
    = Deserialize (fst (Serialize value)).
Proof.
  intros Hok.
  assert (Hkey : goredis.cacheKey {| goredis.prefix := p; goredis.store := st |}
                   (q +:+ ":" +:+ k)
                 = goredis.cacheKey
                     {| goredis.prefix := p +:+ ":" +:+ q; goredis.store := st' |} k).
  { unfold goredis.cacheKey. cbn [goredis.prefix].
    now rewrite !append_assoc. }
  split; [exact Hkey |]. split.
  - intros Heq. apply (f_equal String.length) in Heq.
    rewrite !length_append in Heq. simpl in Heq. lia.
  - unfold goredis.Get, goredis.Set_, redisstore.Set_ in *. rewrite <- Hkey.
    destruct (invoke_success _ _ value expire db Hok) as [t Ht]. rewrite Ht.
    unfold result.
    rewrite (run_Get_present _ _ _ (Entry (Serialize value).1 t))
      by apply lookup_insert_eq.
    reflexivity.
Qed.

End ServiceOnServer.

(** * More concrete runs *)

Section MoreRuns.

Import GoInt redisstore.

Lemma Set_then_Get_witness :
  result (Set_ (NewRedisCacheWithPool time.Minute) "k" (Some 42) time.Minute)
         (∅ : keyspace) = None /\
  result (Get (NewRedisCacheWithPool time.Minute) "k")
         (final (Set_ (NewRedisCacheWithPool time.Minute) "k" (Some 42) time.Minute)
                (∅ : keyspace))
    = (Some 42, None).
Proof.
  assert (Hok : result (Set_ (NewRedisCacheWithPool time.Minute) "k" (Some 42)
                          time.Minute) (∅ : keyspace) = None) by reflexivity.
  split; [exact Hok |].
  exact (Set_then_Get (NewRedisCacheWithPool time.Minute) "k" (Some 42)
           time.Minute ∅ Hok).
Defined.

Lemma Add_absent_is_Set_witness :
  (∅ : keyspace) !! "k" = None /\
  run (Add (NewRedisCacheWithPool time.Minute) "k" (Some 42) FOREVER) (∅ : keyspace)
    = run (Set_ (NewRedisCacheWithPool time.Minute) "k" (Some 42) FOREVER)
          (∅ : keyspace).
Proof.
  assert (Hnone : (∅ : keyspace) !! "k" = None) by reflexivity.
  split; [exact Hnone |].
  exact (proj1 (Add_absent_is_Set (NewRedisCacheWithPool time.Minute) "k"
                  (Some 42) FOREVER ∅ Hnone)).
Defined.

Lemma Replace_absent_not_stored_witness :
  (∅ : keyspace) !! "k" = None /\
  run (Replace (NewRedisCacheWithPool time.Minute) "k" (Some 42) FOREVER)
      (∅ : keyspace)
    = (Some ErrNotStored, ∅).
Proof.
  assert (Hnone : (∅ : keyspace) !! "k" = None) by reflexivity.
  split; [exact Hnone |].
  exact (proj1 (Replace_absent_not_stored (NewRedisCacheWithPool time.Minute) "k"
                  (Some 42) FOREVER ∅ Hnone)).
Defined.

Lemma Replace_present_is_Set_witness :
  is_Some (({["k" := Entry "7" (Some 30)]} : keyspace) !! "k") /\
  run (Replace (NewRedisCacheWithPool time.Minute) "k" (Some 42) FOREVER)
      ({["k" := Entry "7" (Some 30)]} : keyspace)
    = run (Set_ (NewRedisCacheWithPool time.Minute) "k" (Some 42) FOREVER)
          ({["k" := Entry "7" (Some 30)]} : keyspace).
Proof.
  assert (Hpresent : is_Some (({["k" := Entry "7" (Some 30)]} : keyspace) !! "k"))
    by (exists (Entry "7" (Some 30)); reflexivity).
  split; [exact Hpresent |].
  exact (Replace_present_is_Set (NewRedisCacheWithPool time.Minute) "k" 42
           FOREVER _ Hpresent).
Defined.

Lemma Delete_removes_key_witness :
  is_Some (({["k" := Entry "7" None]} : keyspace) !! "k") /\
  (∅ : keyspace) !! "k" = None /\
  result (Delete (NewRedisCacheWithPool time.Minute) "k")
         ({["k" := Entry "7" None]} : keyspace) = None /\
  result (Delete (NewRedisCacheWithPool time.Minute) "k") (∅ : keyspace)
    = Some ErrCacheMiss.
Proof.
  assert (Hpresent : is_Some (({["k" := Entry "7" None]} : keyspace) !! "k"))
    by (exists (Entry "7" None); reflexivity).
  assert (Hnone : (∅ : keyspace) !! "k" = None) by reflexivity.
  destruct (Delete_removes_key (NewRedisCacheWithPool time.Minute) "k"
              ({["k" := Entry "7" None]} : keyspace)) as [_ Hthere].
  destruct (Delete_removes_key (NewRedisCacheWithPool time.Minute) "k"
              (∅ : keyspace)) as [Hmissing _].
  split; [exact Hpresent | split; [exact Hnone | split]].
  - unfold result. now rewrite (proj1 (Hthere Hpresent)).
  - unfold result. now rewrite (proj1 (Hmissing Hnone)).
Defined.

Lemma Increment_absent_witness :
  (∅ : keyspace) !! "k" = None /\
  run (Increment (NewRedisCacheWithPool time.Minute) "k" 1) (∅ : keyspace)
    = ((0, Some ErrCacheMiss), ∅).
Proof.
  assert (Hnone : (∅ : keyspace) !! "k" = None) by reflexivity.
  split; [exact Hnone |].
  exact (proj1 (Increment_absent (NewRedisCacheWithPool time.Minute) "k" 1 ∅ Hnone)).
Defined.

Lemma Increment_not_integer_witness :
  ({["k" := Entry "hello" None]} : keyspace) !! "k" = Some (Entry "hello" None) /\
  snd (strconv.ParseInt "hello") = Some (NumError "ParseInt" "hello" ErrSyntax) /\
  run (Increment (NewRedisCacheWithPool time.Minute) "k" 1)
      ({["k" := Entry "hello" None]} : keyspace)
    = ((0, Some (NumError "ParseInt" "hello" ErrSyntax)),
       {["k" := Entry "hello" None]}).
Proof.
  assert (Hentry : ({["k" := Entry "hello" None]} : keyspace) !! "k"
                   = Some (Entry "hello" None)) by reflexivity.
  assert (Hparse : snd (strconv.ParseInt "hello")
                   = Some (NumError "ParseInt" "hello" ErrSyntax)) by reflexivity.
  split; [exact Hentry | split; [exact Hparse |]].
  exact (proj1 (Increment_not_integer (NewRedisCacheWithPool time.Minute) "k" 1 _
                  (Entry "hello" None) _ Hentry Hparse)).
Defined.

Lemma Decrement_absent_witness :
  (∅ : keyspace) !! "k" = None /\
  run (Decrement (NewRedisCacheWithPool time.Minute) "k" 1) (∅ : keyspace)
    = ((0, Some ErrCacheMiss), ∅).
Proof.
  assert (Hnone : (∅ : keyspace) !! "k" = None) by reflexivity.
  split; [exact Hnone |].
  exact (proj1 (Decrement_absent (NewRedisCacheWithPool time.Minute) "k" 1 ∅ Hnone)).
Defined.

Lemma Decrement_keeps_ttl_witness :
  holds_integer ({["k" := Entry "5" (Some 30)]} : keyspace) "k" 5 /\
  ttl <$> final (Decrement (NewRedisCacheWithPool time.Minute) "k" 2)
                ({["k" := Entry "5" (Some 30)]} : keyspace) !! "k"
    = Some (Some 30).
Proof.
  assert (Hholds : holds_integer ({["k" := Entry "5" (Some 30)]} : keyspace) "k" 5)
    by reflexivity.
  assert (Hn : 0 <= 5 <= MaxInt64) by (unfold MaxInt64; lia).
  assert (Hd : is_uint64 2) by (unfold is_uint64, MaxUint64; lia).
  split; [exact Hholds |].
  exact (proj1 (Decrement_keeps_ttl (NewRedisCacheWithPool time.Minute) "k" 2 _ 5
                  Hholds Hn Hd)).
Defined.

Lemma SetExpire_sets_ttl_witness :
  ({["k" := Entry "7" None]} : keyspace) !! "k" = Some (Entry "7" None) /\
  run (SetExpire (NewRedisCacheWithPool time.Minute) "k" (90 * time.Second))
      ({["k" := Entry "7" None]} : keyspace)
    = (true, <["k" := Entry "7" (Some 90)]> {["k" := Entry "7" None]}).
Proof.
  assert (Hentry : ({["k" := Entry "7" None]} : keyspace) !! "k"
                   = Some (Entry "7" None)) by reflexivity.
  assert (Hexp : time.Second <= 90 * time.Second < 2 ^ 31 * time.Second)
    by (unfold time.Second; lia).
  split; [exact Hentry |].
  exact (SetExpire_sets_ttl (NewRedisCacheWithPool time.Minute) "k"
           (90 * time.Second) _ (Entry "7" None) Hentry Hexp).
Defined.

Lemma SetExpire_under_a_second_deletes_witness :
  is_Some (({["k" := Entry "7" None]} : keyspace) !! "k") /\
  trace (SetExpire (NewRedisCacheWithPool time.Minute) "k" FOREVER)
        ({["k" := Entry "7" None]} : keyspace)
    = [redis.EXPIRE "k" (redis.ArgInt32 0)] /\
  run (SetExpire (NewRedisCacheWithPool time.Minute) "k" FOREVER)
      ({["k" := Entry "7" None]} : keyspace)
    = (true, delete "k" {["k" := Entry "7" None]}).
Proof.
  assert (Hpresent : is_Some (({["k" := Entry "7" None]} : keyspace) !! "k"))
    by (exists (Entry "7" None); reflexivity).
  assert (Hexp : - 2 ^ 31 * time.Second < FOREVER < time.Second)
    by (unfold time.Second, FOREVER; lia).
  destruct (SetExpire_under_a_second_deletes (NewRedisCacheWithPool time.Minute)
              "k" FOREVER _ Hpresent) as (Htrace & _ & Hbounded & _).
  split; [exact Hpresent | split; [exact Htrace |]].
  exact (proj2 (proj2 (Hbounded Hexp))).
Defined.

Lemma SetExpire_true_iff_present_witness :
  (∅ : keyspace) !! "k" = None /\
  result (SetExpire (NewRedisCacheWithPool time.Minute) "k" time.Minute)
         (∅ : keyspace) = false /\
  final (SetExpire (NewRedisCacheWithPool time.Minute) "k" time.Minute)
        (∅ : keyspace) = ∅.
Proof.
  assert (Hnone : (∅ : keyspace) !! "k" = None) by reflexivity.
  destruct (SetExpire_true_iff_present (NewRedisCacheWithPool time.Minute) "k"
              time.Minute (∅ : keyspace)) as [Hresult Hfinal].
  split; [exact Hnone | split; [exact Hresult | exact (Hfinal Hnone)]].
Defined.

Lemma Set_stores_witness :
  Serialize (Some 42) = ("42", None) /\
  run (Set_ (NewRedisCacheWithPool time.Minute) "k" (Some 42) (90 * time.Second))
      (∅ : keyspace)
    = (None, <["k" := Entry "42" (Some 90)]> ∅).
Proof.
  assert (Hcodec : Serialize (Some 42) = ("42", None)) by reflexivity.
  assert (Hexp : time.Second <= 90 * time.Second < 2 ^ 31 * time.Second)
    by (unfold time.Second; lia).
  split; [exact Hcodec |].
  exact (proj2 (Set_stores (NewRedisCacheWithPool time.Minute) "k" (Some 42) "42"
                  (90 * time.Second) ∅ Hcodec) Hexp).
Defined.

Lemma Set_under_a_second_rejected_witness :
  Serialize (Some 42) = ("42", None) /\
  run (Set_ (NewRedisCacheWithPool time.Minute) "k" (Some 42)
         (500 * time.Millisecond)) (∅ : keyspace)
    = (Some (RedisError "ERR invalid expire time in 'setex' command"), ∅).
Proof.
  assert (Hcodec : Serialize (Some 42) = ("42", None)) by reflexivity.
  assert (Hexp : 0 < 500 * time.Millisecond < time.Second)
    by (unfold time.Second, time.Millisecond; lia).
  split; [exact Hcodec |].
  exact (Set_under_a_second_rejected (NewRedisCacheWithPool time.Minute) "k"
           (Some 42) "42" (500 * time.Millisecond) ∅ Hcodec Hexp).
Defined.

Lemma Increment_then_Decrement_witness :
  ({["k" := Entry "41" None]} : keyspace) !! "k" = Some (Entry "41" None) /\
  strconv.ParseInt "41" = (41, None) /\
  result (Decrement (NewRedisCacheWithPool time.Minute) "k" 9)
         (final (Increment (NewRedisCacheWithPool time.Minute) "k" 9)
                ({["k" := Entry "41" None]} : keyspace))
    = (41, None).
Proof.
  assert (Hentry : ({["k" := Entry "41" None]} : keyspace) !! "k"
                   = Some (Entry "41" None)) by reflexivity.
  assert (Hparse : strconv.ParseInt "41" = (41, None)) by reflexivity.
  assert (Hn : 0 <= 41) by lia.
  assert (Hd : 0 <= 9) by lia.
  assert (Hsum : 41 + 9 <= MaxInt64) by (unfold MaxInt64; lia).
  split; [exact Hentry | split; [exact Hparse |]].
  exact (proj1 (proj2 (Increment_then_Decrement (NewRedisCacheWithPool time.Minute)
                         "k" 9 _ (Entry "41" None) 41 Hentry Hparse Hn Hd Hsum))).
Defined.

Lemma Decrement_negative_goes_down_witness :
  holds_integer ({["k" := Entry "-5" None]} : keyspace) "k" (-5) /\
  result (Decrement (NewRedisCacheWithPool time.Minute) "k" 3)
         ({["k" := Entry "-5" None]} : keyspace)
    = (-5 - 3 + 2 ^ 64, None).
Proof.
  assert (Hholds : holds_integer ({["k" := Entry "-5" None]} : keyspace) "k" (-5))
    by reflexivity.
  assert (Hn : MinInt64 <= -5 < 0) by (unfold MinInt64; lia).
  assert (Hd : 0 <= 3 <= MaxInt64) by (unfold MaxInt64; lia).
  assert (Hlow : MinInt64 <= -5 - 3) by (unfold MinInt64; lia).
  split; [exact Hholds |].
  exact (proj1 (Decrement_negative_goes_down (NewRedisCacheWithPool time.Minute)
                  "k" 3 _ (-5) Hholds Hn Hd Hlow)).
Defined.

Lemma Decrement_not_integer_witness :
  ({["k" := Entry "hello" None]} : keyspace) !! "k" = Some (Entry "hello" None) /\
  snd (strconv.ParseInt "hello") = Some (NumError "ParseInt" "hello" ErrSyntax) /\
  run (Decrement (NewRedisCacheWithPool time.Minute) "k" 1)
      ({["k" := Entry "hello" None]} : keyspace)
    = ((0, Some (RedisError not_an_integer)), {["k" := Entry "hello" None]}).
Proof.
  assert (Hentry : ({["k" := Entry "hello" None]} : keyspace) !! "k"
                   = Some (Entry "hello" None)) by reflexivity.
  assert (Hparse : snd (strconv.ParseInt "hello")
                   = Some (NumError "ParseInt" "hello" ErrSyntax)) by reflexivity.
  split; [exact Hentry | split; [exact Hparse |]].
  exact (proj1 (Decrement_not_integer (NewRedisCacheWithPool time.Minute) "k" 1 _
                  (Entry "hello" None) _ Hentry Hparse)).
Defined.

Lemma Failed_check_reads_as_missing_witness :
  fst (redis.conn_Do (redis.EXISTS "k") {| err := errPoolClosed |})
    = (None, Some errPoolClosed) /\
  result (Delete (NewRedisCacheWithPool time.Minute) "k") {| err := errPoolClosed |}
    = Some ErrCacheMiss /\
  result (Decrement (NewRedisCacheWithPool time.Minute) "k" 1)
         {| err := errPoolClosed |}
    = (0, Some ErrCacheMiss) /\
  result (Replace (NewRedisCacheWithPool time.Minute) "k" (Some 42) FOREVER)
         {| err := errPoolClosed |}
    = Some ErrNotStored.
Proof.
  assert (Hreply : fst (redis.conn_Do (redis.EXISTS "k") {| err := errPoolClosed |})
                   = (None, Some errPoolClosed)) by reflexivity.
  destruct (Failed_check_reads_as_missing (NewRedisCacheWithPool time.Minute) "k"
              (Some 42) FOREVER 1 {| err := errPoolClosed |} None errPoolClosed
              Hreply)
    as ((Hdelete & _) & (Hdecrement & _) & (Hreplace & _)).
  split; [exact Hreply |
    split; [exact Hdelete | split; [exact Hdecrement | exact Hreplace]]].
Defined.

Lemma Add_writes_after_failed_check_witness :
  fst (redis.conn_Do (redis.EXISTS "k") {| err := errPoolClosed |})
    = (None, Some errPoolClosed) /\
  trace (Add (NewRedisCacheWithPool time.Minute) "k" (Some 42) FOREVER)
        {| err := errPoolClosed |}
    = [redis.EXISTS "k"; redis.SET "k" (redis.ArgBytes "42")] /\
  run (Add (NewRedisCacheWithPool time.Minute) "k" (Some 42) FOREVER)
      {| err := errPoolClosed |}
    = run (Set_ (NewRedisCacheWithPool time.Minute) "k" (Some 42) FOREVER)
          {| err := errPoolClosed |}.
Proof.
  assert (Hreply : fst (redis.conn_Do (redis.EXISTS "k") {| err := errPoolClosed |})
                   = (None, Some errPoolClosed)) by reflexivity.
  split; [exact Hreply | split; [reflexivity |]].
  exact (Add_writes_after_failed_check (NewRedisCacheWithPool time.Minute) "k"
           (Some 42) FOREVER {| err := errPoolClosed |} None errPoolClosed Hreply).
Defined.

Lemma Codec_error_writes_nothing_witness :
  @Serialize Z StrictCodec.strict_codec None
    = ("", Some (CodecError "cannot encode nil value")) /\
  @Set_ Z StrictCodec.strict_codec (NewRedisCacheWithPool time.Minute) "k" None
    time.Minute
    = Ret (Some (CodecError "cannot encode nil value")) /\
  trace (@Add Z StrictCodec.strict_codec (NewRedisCacheWithPool time.Minute) "k"
           None time.Minute) (∅ : keyspace)
    = [redis.EXISTS "k"].
Proof.
  assert (Hcodec : @Serialize Z StrictCodec.strict_codec None
                   = ("", Some (CodecError "cannot encode nil value")))
    by reflexivity.
  destruct (@Codec_error_writes_nothing keyspace _ Z StrictCodec.strict_codec
              (NewRedisCacheWithPool time.Minute) "k" None ""
              (CodecError "cannot encode nil value") time.Minute ∅ Hcodec)
    as (Hset & Hadd & _).
  split; [exact Hcodec | split; [exact Hset | exact Hadd]].
Defined.

Lemma Increment_read_failure_witness :
  fst (redis.conn_Do (redis.GET "k") {| err := errPoolClosed |})
    = (None, Some errPoolClosed) /\
  result (Increment (NewRedisCacheWithPool time.Minute) "k" 1)
         {| err := errPoolClosed |}
    = (0, Some ErrCacheMiss).
Proof.
  assert (Hreply : fst (redis.conn_Do (redis.GET "k") {| err := errPoolClosed |})
                   = (None, Some errPoolClosed)) by reflexivity.
  split; [exact Hreply |].
  exact (proj1 (Increment_read_failure (NewRedisCacheWithPool time.Minute) "k" 1
                  {| err := errPoolClosed |} None errPoolClosed Hreply)).
Defined.

Lemma Closed_pool_results_witness :
  Serialize (Some 42) = ("42", None) /\
  result (Set_ (NewRedisCacheWithPool time.Minute) "k" (Some 42) time.Minute)
         {| err := errPoolClosed |}
    = Some errPoolClosed /\
  result (Delete (NewRedisCacheWithPool time.Minute) "k") {| err := errPoolClosed |}
    = Some ErrCacheMiss.
Proof.
  assert (Hcodec : Serialize (Some 42) = ("42", None)) by reflexivity.
  destruct (Closed_pool_results (NewRedisCacheWithPool time.Minute) "k" (Some 42)
              "42" time.Minute 1 {| err := errPoolClosed |} Hcodec)
    as (Hset & _ & _ & _ & Hdelete & _).
  split; [exact Hcodec | split; [exact Hset | exact Hdelete]].
Defined.

Import RedisEndpoint.

Lemma Dial_closes_what_it_gives_up_witness :
  pool.calls (pool.Dial (pool.NewRedisCache "127.0.0.1" 6379 "secret" 1))
    {| RedisEndpoint.cfg :=
         {| RedisEndpoint.address := "127.0.0.1:6379";
            RedisEndpoint.requirepass := "hunter2";
            RedisEndpoint.databases := 16 |};
       RedisEndpoint.conn := RedisEndpoint.NotConnected |}
    = [pool.NetDial "tcp" "127.0.0.1:6379"] \/
  last (pool.calls (pool.Dial (pool.NewRedisCache "127.0.0.1" 6379 "secret" 1))
          {| RedisEndpoint.cfg :=
               {| RedisEndpoint.address := "127.0.0.1:6379";
                  RedisEndpoint.requirepass := "hunter2";
                  RedisEndpoint.databases := 16 |};
             RedisEndpoint.conn := RedisEndpoint.NotConnected |})
    = Some pool.ConnClose.
Proof.
  exact (Dial_closes_what_it_gives_up "127.0.0.1" 6379 1 "secret"
           (pool.Dial (pool.NewRedisCache "127.0.0.1" 6379 "secret" 1))
           {| RedisEndpoint.cfg :=
                {| RedisEndpoint.address := "127.0.0.1:6379";
                   RedisEndpoint.requirepass := "hunter2";
                   RedisEndpoint.databases := 16 |};
              RedisEndpoint.conn := RedisEndpoint.NotConnected |}
           (or_introl eq_refl)).
Defined.

Lemma Dial_connects_iff_witness :
  fst (pool.run_setup (pool.Dial (pool.CreatePool "127.0.0.1" 6379 1 "hunter2"))
         {| RedisEndpoint.cfg :=
              {| RedisEndpoint.address := "127.0.0.1:6379";
                 RedisEndpoint.requirepass := "hunter2";
                 RedisEndpoint.databases := 16 |};
            RedisEndpoint.conn := RedisEndpoint.NotConnected |})
    = pool.Connected /\
  RedisEndpoint.conn
    (snd (pool.run_setup (pool.Dial (pool.CreatePool "127.0.0.1" 6379 1 "hunter2"))
            {| RedisEndpoint.cfg :=
                 {| RedisEndpoint.address := "127.0.0.1:6379";
                    RedisEndpoint.requirepass := "hunter2";
                    RedisEndpoint.databases := 16 |};
               RedisEndpoint.conn := RedisEndpoint.NotConnected |}))
    = RedisEndpoint.Open true 1.
Proof.
  destruct (Dial_connects_iff "127.0.0.1" 6379 1 "hunter2"
              (pool.CreatePool "127.0.0.1" 6379 1 "hunter2")
              {| RedisEndpoint.cfg :=
                   {| RedisEndpoint.address := "127.0.0.1:6379";
                      RedisEndpoint.requirepass := "hunter2";
                      RedisEndpoint.databases := 16 |};
                 RedisEndpoint.conn := RedisEndpoint.NotConnected |}
              (or_intror eq_refl) eq_refl)
    as (Hiff & Hconnected & _).
  assert (Hyes : fst (pool.run_setup
                        (pool.Dial (pool.CreatePool "127.0.0.1" 6379 1 "hunter2"))
                        {| RedisEndpoint.cfg :=
                             {| RedisEndpoint.address := "127.0.0.1:6379";
                                RedisEndpoint.requirepass := "hunter2";
                                RedisEndpoint.databases := 16 |};
                           RedisEndpoint.conn := RedisEndpoint.NotConnected |})
                 = pool.Connected).
  { apply Hiff. split; [reflexivity | split; [reflexivity | simpl; lia]]. }
  split; [exact Hyes | exact (proj1 (Hconnected Hyes))].
Defined.

Lemma Service_Set_Get_Delete_witness :
  result (goredis.Set_ (goredis.NewService "goredis") "username" (Some 42)
            time.Minute) (∅ : keyspace) = None /\
  result (goredis.Get (goredis.NewService "goredis") "username")
         (final (goredis.Set_ (goredis.NewService "goredis") "username" (Some 42)
                   time.Minute) (∅ : keyspace))
    = (Some 42, None) /\
  result (goredis.Delete (goredis.NewService "goredis") "username")
         (final (goredis.Set_ (goredis.NewService "goredis") "username" (Some 42)
                   time.Minute) (∅ : keyspace))
    = None.
Proof.
  assert (Hok : result (goredis.Set_ (goredis.NewService "goredis") "username"
                          (Some 42) time.Minute) (∅ : keyspace) = None)
    by reflexivity.
  destruct (Service_Set_Get_Delete (goredis.NewService "goredis") "username"
              (Some 42) time.Minute ∅ Hok) as (Hget & Hdelete & _).
  split; [exact Hok | split; [exact Hget | exact Hdelete]].
Defined.

Lemma NewService_DEFAULT_is_FOREVER_witness :
  Serialize (Some 42) = ("42", None) /\
  goredis.Set_ (goredis.NewService "app") "u" (Some 42) DEFAULT
    = Do (redis.SET "app:u" (redis.ArgBytes "42")) (fun r => Ret (snd r)).
Proof.
  assert (Hcodec : Serialize (Some 42) = ("42", None)) by reflexivity.
  split; [exact Hcodec |].
  exact (proj1 (NewService_DEFAULT_is_FOREVER "app" "u" (Some 42) "42" Hcodec)).
Defined.

Lemma Service_keys_independent_witness :
  "v" <> "u" /\
  final (goredis.perform (goredis.NewService "app")
           (goredis.CallSet "u" (Some 42) FOREVER))
        ({["app:v" := Entry "7" None]} : keyspace) !! "app:v"
    = Some (Entry "7" None).
Proof.
  assert (Hne : "v" <> "u") by discriminate.
  split; [exact Hne |].
  exact (Service_keys_independent (goredis.NewService "app")
           (goredis.CallSet "u" (Some 42) FOREVER) "v"
           ({["app:v" := Entry "7" None]} : keyspace) Hne).
Defined.

Lemma Service_prefixes_overlap_witness :
  result (goredis.Set_ (goredis.NewService "app") "eu:u" (Some 42) FOREVER)
         (∅ : keyspace) = None /\
  goredis.cacheKey (goredis.NewService "app") "eu:u"
    = goredis.cacheKey (goredis.NewService "app:eu") "u" /\
  result (goredis.Get (goredis.NewService "app:eu") "u")
         (final (goredis.Set_ (goredis.NewService "app") "eu:u" (Some 42) FOREVER)
                (∅ : keyspace))
    = (Some 42, None).
Proof.
  assert (Hok : result (goredis.Set_ (goredis.NewService "app") "eu:u" (Some 42)
                          FOREVER) (∅ : keyspace) = None) by reflexivity.
  destruct (Service_prefixes_overlap (NewRedisCacheWithPool DEFAULT)
              (NewRedisCacheWithPool DEFAULT) "app" "eu" "u" (Some 42) FOREVER
              ∅ Hok) as (Hkey & _ & Hget).
  split; [exact Hok | split; [exact Hkey | exact Hget]].
Defined.

End MoreRuns.
